(** * Web Print Portal: the copies stepper and the submission flow of src/App.tsx

    A shallow embedding of the stateful parts of [src/App.tsx]:
    the [CustomNumberInput] handlers, the [PrintForm] file bookkeeping, and
    [AppContent] with its [handleSubmit] flow and its auto-dismiss effect. *)

From Stdlib Require Import ZArith List String Ascii Bool Lia DecimalString.
Import ListNotations.

Local Open Scope string_scope.
Local Open Scope Z_scope.

(** ** The fragment of JavaScript values the component computes with *)

Module JS.

(** A [number] is an IEEE-754 binary64 value.  Every number the stepper can
    hold is integer valued ([parseInt] results, the integer props, and sums
    and differences of those), so the finite values are carried as the
    integer they denote; [-0] is identified with [0], which no operation used
    here tells apart. *)
Inductive number : Type :=
| Fin (z : Z)
| PosInf
| NegInf
| NaN.

(** The binary64 value nearest to an integer, ties to even: integers up to
    [2^53] in magnitude are exact, larger ones keep 53 significant bits, and
    a result of magnitude [2^1024] or more overflows to an infinity. *)
Definition nearest_double (z : Z) : number :=
  let a := Z.abs z in
  if a <=? 2 ^ 53 then Fin z
  else
    let e := Z.log2 a - 52 in
    let q := a / 2 ^ e in
    let r := a mod 2 ^ e in
    let h := 2 ^ (e - 1) in
    let q' :=
      if r <? h then q
      else if h <? r then q + 1
      else if Z.even q then q else q + 1 in
    let v := q' * 2 ^ e in
    if 2 ^ 1024 <=? v then (if z <? 0 then NegInf else PosInf)
    else Fin (Z.sgn z * v).

Definition neg (x : number) : number :=
  match x with
  | Fin z => Fin (- z)
  | PosInf => NegInf
  | NegInf => PosInf
  | NaN => NaN
  end.

(** [x + y] on numbers. *)
Definition add (x y : number) : number :=
  match x, y with
  | NaN, _ | _, NaN => NaN
  | PosInf, NegInf | NegInf, PosInf => NaN
  | PosInf, _ | _, PosInf => PosInf
  | NegInf, _ | _, NegInf => NegInf
  | Fin a, Fin b => nearest_double (a + b)
  end.

(** [x - y] on numbers. *)
Definition sub (x y : number) : number := add x (neg y).

(** [x < y] on numbers; false as soon as one side is [NaN]. *)
Definition lt (x y : number) : bool :=
  match x, y with
  | NaN, _ | _, NaN => false
  | _, NegInf => false
  | NegInf, _ => true
  | PosInf, _ => false
  | Fin _, PosInf => true
  | Fin a, Fin b => a <? b
  end.

(** [Math.max(x, y)]. *)
Definition Math_max (x y : number) : number :=
  match x, y with
  | NaN, _ | _, NaN => NaN
  | _, _ => if lt x y then y else x
  end.

Definition isNaN (x : number) : bool :=
  match x with NaN => true | _ => false end.

(** Strings are sequences of code units; the embedding keeps the code units
    0..255 of Rocq's [ascii]. *)
Definition code (c : ascii) : Z := Z.of_N (N_of_ascii c).

Definition digit_value (c : ascii) : option Z :=
  let n := code c in
  if (48 <=? n) && (n <=? 57) then Some (n - 48) else None.

Definition is_digit (c : ascii) : bool :=
  match digit_value c with Some _ => true | None => false end.

(** White space and line terminators below U+0100: TAB, LF, VT, FF, CR, SP
    and NBSP. *)
Definition is_white_space (c : ascii) : bool :=
  let n := code c in
  ((9 <=? n) && (n <=? 13)) || (n =? 32) || (n =? 160).

Fixpoint trim_start (s : string) : string :=
  match s with
  | String c r => if is_white_space c then trim_start r else s
  | EmptyString => s
  end.

(** The integer written by the longest prefix of decimal digits of [s],
    continuing from [acc]. *)
Fixpoint digits_value (acc : Z) (s : string) : Z :=
  match s with
  | String c r =>
      match digit_value c with
      | Some d => digits_value (10 * acc + d) r
      | None => acc
      end
  | EmptyString => acc
  end.

(** [parseInt(s, 10)]: skip leading white space, read an optional sign, then
    the longest run of decimal digits; [NaN] when that run is empty. *)
Definition parseInt (s : string) : number :=
  let trimmed := trim_start s in
  let '(sign, body) :=
    match trimmed with
    | String c r =>
        if Ascii.eqb c "-" then (-1, r)
        else if Ascii.eqb c "+" then (1, r)
        else (1, trimmed)
    | EmptyString => (1, trimmed)
    end in
  match body with
  | String c _ =>
      if is_digit c then nearest_double (sign * digits_value 0 body) else NaN
  | EmptyString => NaN
  end.

Fixpoint all_digits (s : string) : bool :=
  match s with
  | String c r => is_digit c && all_digits r
  | EmptyString => true
  end.

(** String to number conversion, on the strings the stepper can hold: the
    empty string converts to [0] and a run of decimal digits to the number
    it writes.  The rest of the numeric string grammar (white space, signs,
    fractions, exponents, other radixes) is never met by [count], see
    [count_shape_preserved] below, and is sent to [NaN] here. *)
Definition StringToNumber (s : string) : number :=
  if all_digits s then nearest_double (digits_value 0 s) else NaN.

(** The values the [count] state takes at run time: the declared [number],
    and a string once [setCount('' as any)] has run. *)
Inductive value : Type :=
| Num (n : number)
| Str (s : string).

Definition ToNumber (v : value) : number :=
  match v with
  | Num n => n
  | Str s => StringToNumber s
  end.

(** [v + 1]: numeric addition on a number, concatenation with ["1"] on a
    string. *)
Definition plus_1 (v : value) : value :=
  match v with
  | Num n => Num (add n (Fin 1))
  | Str s => Str (s ++ "1")
  end.

(** [v - 1]: always numeric. *)
Definition minus_1 (v : value) : number := sub (ToNumber v) (Fin 1).

(** [v === '']. *)
Definition is_empty_string (v : value) : bool :=
  match v with
  | Str s => String.eqb s ""
  | Num _ => false
  end.

(** [v < m] for a number [m]: the left side is converted to a number. *)
Definition lt_number (v : value) (m : number) : bool := lt (ToNumber v) m.

Fixpoint all_white_space (s : string) : bool :=
  match s with
  | String c r => is_white_space c && all_white_space r
  | EmptyString => true
  end.

(** The texts that start with an integer: white space, an optional sign,
    then at least one decimal digit. *)
Definition has_integer_prefix (s : string) : Prop :=
  exists ws sign d rest,
    s = (ws ++ sign ++ String d rest)%string /\
    all_white_space ws = true /\
    (sign = "" \/ sign = "+" \/ sign = "-") /\
    is_digit d = true.

End JS.

(** ** CustomNumberInput *)

Module CustomNumberInput.
Import JS.

Section Handlers.

(** The [min] prop; an integer ([PrintForm] passes [1]). *)
Variable min : Z.

(** [setCount(prev => Math.max(min, prev - 1))] *)
Definition handleDecrement (prev : value) : value :=
  Num (Math_max (Fin min) (minus_1 prev)).

(** [setCount(prev => prev + 1)] *)
Definition handleIncrement (prev : value) : value :=
  plus_1 prev.

(** [handleInputChange], as the new [count] for the typed text [value]. *)
Definition handleInputChange (value : string) (count : JS.value) : JS.value :=
  if String.eqb value "" then Str ""
  else
    let numValue := parseInt value in
    if negb (isNaN numValue) then Num numValue else count.

(** [handleInputBlur], as the new [count]. *)
Definition handleInputBlur (count : value) : value :=
  if is_empty_string count || lt_number count (Fin min)
  then Num (Fin min)
  else count.

(** A number that is not below [min]. *)
Definition at_least_min (v : value) : bool :=
  match v with
  | Num (Fin c) => min <=? c
  | Num PosInf => true
  | _ => false
  end.

End Handlers.

(** The strings made of the digit 1 only: [''] and what [+ 1] appends. *)
Fixpoint ones (s : string) : bool :=
  match s with
  | String c r => Ascii.eqb c "1" && ones r
  | EmptyString => true
  end.

(** What [count] can be: a number other than [NaN], or a string of ones. *)
Definition count_shape (v : value) : Prop :=
  match v with
  | Num n => n <> NaN
  | Str s => ones s = true
  end.

End CustomNumberInput.

(** ** PrintForm and AppContent *)

Module App.

Inductive StatusType : Type := info | success | error.

Record Status : Type := { message : string; type : StatusType }.

(** [import.meta.env]: a variable that is not configured reads [undefined]. *)
Record ImportMetaEnv : Type := {
  VITE_PRINT_API_KEY : option string;
  VITE_PRINT_WEBHOOK_URL : option string;
  VITE_APP_TITLE : option string
}.

(** The string behind a truthy environment value: [undefined] and [''] are
    the falsy ones. *)
Definition truthy (v : option string) : option string :=
  match v with
  | Some s => if String.eqb s "" then None else Some s
  | None => None
  end.

(** A thrown value (a rejected promise's reason). *)
Inductive thrown : Type := Thrown (reason : string).

(** How a promise settles. *)
Inductive Settled (A : Type) : Type :=
| Fulfilled (a : A)
| Rejected (e : thrown).
Arguments Fulfilled {A} a.
Arguments Rejected {A} e.

(** A [Response]: its HTTP status and how [response.text()] settles. *)
Record Response : Type := { http_status : Z; text : Settled string }.

(** [response.ok]: the status is in the range 200-299. *)
Definition ok (r : Response) : bool :=
  (200 <=? http_status r) && (http_status r <=? 299).

(** The callback [() => setFileName(null)] that [PrintForm] hangs on the file
    input as [resetFileName]. *)
Inductive callback : Type := SetFileNameNull.

(** The DOM form [#printForm]: the file input [#file-upload] with its
    [resetFileName] expando, and the text input [#copies]. *)
Record Form : Type := {
  file_value : string;
  resetFileName : option callback;
  copies_value : string;
  copies_defaultValue : string
}.

(** [new FormData(form)]: the fields [file] and [copies]. *)
Record FormData : Type := { fd_file : string; fd_copies : string }.

Inductive console_arg : Type :=
| CStr (s : string)
| CNum (z : Z)
| CThrown (e : thrown).

(** What the handler does to the outside: the event's [preventDefault], the
    [fetch] calls with their URL, [X-API-KEY] header and body, and the
    [console.error] lines.  Newest first. *)
Inductive effect : Type :=
| PreventDefault
| Fetch (url apiKey : string) (body : FormData)
| ConsoleError (args : list console_arg).

Definition TimerId : Type := nat.

Record World : Type := {
  (* AppContent *)
  status : option Status;
  isLoading : bool;
  fileInputRef_current : bool;   (* the ref holds the form's file input *)
  cleanup : option TimerId;      (* timer the status effect's cleanup clears *)
  (* PrintForm *)
  fileName : option string;
  (* CustomNumberInput *)
  count : JS.value;
  (* the DOM *)
  form : Form;
  (* the browser: clock in ms, pending timeouts by firing time, trace *)
  now : Z;
  timers : list (TimerId * Z);
  next_timer : TimerId;
  log : list effect
}.

Definition set_status (s : option Status) (w : World) : World :=
  {| status := s; isLoading := isLoading w;
     fileInputRef_current := fileInputRef_current w; cleanup := cleanup w;
     fileName := fileName w; count := count w; form := form w; now := now w;
     timers := timers w; next_timer := next_timer w; log := log w |}.

Definition set_isLoading (b : bool) (w : World) : World :=
  {| status := status w; isLoading := b;
     fileInputRef_current := fileInputRef_current w; cleanup := cleanup w;
     fileName := fileName w; count := count w; form := form w; now := now w;
     timers := timers w; next_timer := next_timer w; log := log w |}.

Definition set_cleanup (c : option TimerId) (w : World) : World :=
  {| status := status w; isLoading := isLoading w;
     fileInputRef_current := fileInputRef_current w; cleanup := c;
     fileName := fileName w; count := count w; form := form w; now := now w;
     timers := timers w; next_timer := next_timer w; log := log w |}.

Definition set_fileName (n : option string) (w : World) : World :=
  {| status := status w; isLoading := isLoading w;
     fileInputRef_current := fileInputRef_current w; cleanup := cleanup w;
     fileName := n; count := count w; form := form w; now := now w;
     timers := timers w; next_timer := next_timer w; log := log w |}.

Definition set_form (f : Form) (w : World) : World :=
  {| status := status w; isLoading := isLoading w;
     fileInputRef_current := fileInputRef_current w; cleanup := cleanup w;
     fileName := fileName w; count := count w; form := f; now := now w;
     timers := timers w; next_timer := next_timer w; log := log w |}.

Definition set_now (t : Z) (w : World) : World :=
  {| status := status w; isLoading := isLoading w;
     fileInputRef_current := fileInputRef_current w; cleanup := cleanup w;
     fileName := fileName w; count := count w; form := form w; now := t;
     timers := timers w; next_timer := next_timer w; log := log w |}.

Definition set_timers (q : list (TimerId * Z)) (w : World) : World :=
  {| status := status w; isLoading := isLoading w;
     fileInputRef_current := fileInputRef_current w; cleanup := cleanup w;
     fileName := fileName w; count := count w; form := form w; now := now w;
     timers := q; next_timer := next_timer w; log := log w |}.

Definition set_next_timer (n : TimerId) (w : World) : World :=
  {| status := status w; isLoading := isLoading w;
     fileInputRef_current := fileInputRef_current w; cleanup := cleanup w;
     fileName := fileName w; count := count w; form := form w; now := now w;
     timers := timers w; next_timer := n; log := log w |}.

Definition emit (e : effect) (w : World) : World :=
  {| status := status w; isLoading := isLoading w;
     fileInputRef_current := fileInputRef_current w; cleanup := cleanup w;
     fileName := fileName w; count := count w; form := form w; now := now w;
     timers := timers w; next_timer := next_timer w; log := e :: log w |}.

(** *** Timers *)

(** The pending timeouts are kept in firing order. *)
Fixpoint enqueue (t : TimerId * Z) (q : list (TimerId * Z)) : list (TimerId * Z) :=
  match q with
  | [] => [t]
  | h :: r => if snd t <? snd h then t :: q else h :: enqueue t r
  end.

(** [setTimeout(callback, delay)]; the only callback of this program is
    [() => setStatus(null)]. *)
Definition setTimeout (delay : Z) (w : World) : TimerId * World :=
  let timer := next_timer w in
  (timer,
   set_next_timer (S timer)
     (set_timers (enqueue (timer, now w + delay) (timers w)) w)).

Definition clearTimeout (timer : TimerId) (w : World) : World :=
  set_timers (filter (fun p => negb (Nat.eqb (fst p) timer)) (timers w)) w.

Definition pending (timer : TimerId) (w : World) : bool :=
  existsb (fun p => Nat.eqb (fst p) timer) (timers w).

(** *** The status state and its effect (lines 288-295) *)

Definition terminal (s : Status) : bool :=
  match type s with
  | success | error => true
  | info => false
  end.

(** The effect body: for a [success] or [error] status arm the 5000 ms
    timer and return the cleanup that clears it. *)
Definition status_effect (w : World) : World :=
  match status w with
  | Some s =>
      if terminal s then
        let '(timer, w') := setTimeout 5000 w in
        set_cleanup (Some timer) w'
      else set_cleanup None w
  | None => set_cleanup None w
  end.

Definition run_cleanup (w : World) : World :=
  match cleanup w with
  | Some timer => clearTimeout timer w
  | None => w
  end.

(** A committed change of [status]: the dependency [[status]] changed, so
    the previous cleanup runs and then the effect body. *)
Definition commit_status (s : option Status) (w : World) : World :=
  status_effect (set_status s (run_cleanup w)).

(** [setStatus(s)] on the world.  Every status object is a fresh literal, so
    it always differs from the current state; [null] over [null] is the one
    update React drops. *)
Definition setStatus_world (s : option Status) (w : World) : World :=
  match s, status w with
  | None, None => w
  | _, _ => commit_status s w
  end.

(** A timeout fires: it leaves the queue and its callback [setStatus(null)]
    runs. *)
Definition fire (timer : TimerId) (at_ : Z) (w : World) : World :=
  setStatus_world None
    (set_now (Z.max (now w) at_)
       (set_timers (filter (fun p => negb (Nat.eqb (fst p) timer)) (timers w)) w)).

(** Run, in firing order, those timeouts of [queue] that are due by [limit]
    and still pending when their turn comes. *)
Fixpoint run_due (queue : list (TimerId * Z)) (limit : Z) (w : World) : World :=
  match queue with
  | (timer, at_) :: rest =>
      if at_ <=? limit
      then run_due rest limit (if pending timer w then fire timer at_ w else w)
      else w
  | [] => w
  end.

(** [dt] milliseconds pass with no other event. *)
Definition elapse (dt : Z) (w : World) : World :=
  let limit := now w + dt in
  set_now limit (run_due (timers w) limit w).

(** *** The handler monad: state threaded through, exceptions propagated *)

Inductive Result (A : Type) : Type :=
| Ok (a : A)
| Throw (e : thrown).
Arguments Ok {A} a.
Arguments Throw {A} e.

Definition M (A : Type) : Type := World -> Result A * World.

Definition ret {A} (a : A) : M A := fun w => (Ok a, w).

Definition bind {A B} (m : M A) (k : A -> M B) : M B :=
  fun w =>
    match m w with
    | (Ok a, w') => k a w'
    | (Throw e, w') => (Throw e, w')
    end.

Definition throw {A} (e : thrown) : M A := fun w => (Throw e, w).

Definition modify (f : World -> World) : M unit := fun w => (Ok tt, f w).

Definition gets {A} (f : World -> A) : M A := fun w => (Ok (f w), w).

(** [try { body } catch (error) { handler }] *)
Definition try_catch {A} (body : M A) (handler : thrown -> M A) : M A :=
  fun w =>
    match body w with
    | (Throw e, w') => handler e w'
    | done => done
    end.

(** [try { body } finally { finalizer }]: the finalizer runs on every exit
    of the body, and the body's completion is kept unless the finalizer
    throws itself. *)
Definition try_finally {A} (body : M A) (finalizer : M unit) : M A :=
  fun w =>
    let '(r, w') := body w in
    match finalizer w' with
    | (Ok _, w'') => (r, w'')
    | (Throw e, w'') => (Throw e, w'')
    end.

Declare Scope handler_scope.
Delimit Scope handler_scope with handler.
Notation "x <- m ;; k" := (bind m (fun x => k))
  (at level 61, m at next level, right associativity) : handler_scope.
Notation "m ;; k" := (bind m (fun _ => k))
  (at level 61, right associativity) : handler_scope.
Local Open Scope handler_scope.

(** [await p] *)
Definition await {A} (p : Settled A) : M A :=
  match p with
  | Fulfilled a => ret a
  | Rejected e => throw e
  end.

Definition setStatus (s : option Status) : M unit := modify (setStatus_world s).
Definition setIsLoading (b : bool) : M unit := modify (set_isLoading b).
Definition setFileName (n : option string) : M unit := modify (set_fileName n).
Definition console_error (args : list console_arg) : M unit :=
  modify (emit (ConsoleError args)).
Definition preventDefault : M unit := modify (emit PreventDefault).

(** [fetch(url, { method: 'POST', headers: { 'X-API-KEY': apiKey }, body })]:
    the request goes out; [answer] is how the returned promise settles. *)
Definition fetch (answer : Settled Response) (url apiKey : string) (body : FormData)
  : M (Settled Response) :=
  fun w => (Ok answer, emit (Fetch url apiKey body) w).

Definition new_FormData : M FormData :=
  gets (fun w => {| fd_file := file_value (form w);
                    fd_copies := copies_value (form w) |}).

(** [form.reset()]: every control goes back to its default value; the
    default of a file input is the empty selection. *)
Definition reset (f : Form) : Form :=
  {| file_value := "";
     resetFileName := resetFileName f;
     copies_value := copies_defaultValue f;
     copies_defaultValue := copies_defaultValue f |}.

Definition form_reset : M unit := modify (fun w => set_form (reset (form w)) w).

(** [fileInputRef.current.value = v] *)
Definition set_file_value (v : string) : M unit :=
  modify (fun w =>
    set_form {| file_value := v;
                resetFileName := resetFileName (form w);
                copies_value := copies_value (form w);
                copies_defaultValue := copies_defaultValue (form w) |} w).

(** [(fileInputRef.current as any).resetFileName?.()] *)
Definition call_resetFileName : M unit :=
  f <- gets (fun w => resetFileName (form w)) ;;
  match f with
  | Some SetFileNameNull => setFileName None
  | None => ret tt
  end.

(** [if (fileInputRef.current) { body }] *)
Definition when_ref (body : M unit) : M unit :=
  attached <- gets fileInputRef_current ;;
  if attached then body else ret tt.

(** *** PrintForm (lines 212-234) *)

(** [files] are the names of [event.target.files]. *)
Definition handleFileChange (files : list string) : M unit :=
  match files with
  | first :: _ => setFileName (Some first)
  | [] => setFileName None
  end.

Definition handleRemoveFile : M unit :=
  when_ref (set_file_value "" ;; setFileName None).

(** The mount effect that installs the reset hook on the file input. *)
Definition install_resetFileName : M unit :=
  when_ref
    (modify (fun w =>
       set_form {| file_value := file_value (form w);
                   resetFileName := Some SetFileNameNull;
                   copies_value := copies_value (form w);
                   copies_defaultValue := copies_defaultValue (form w) |} w)).

(** *** AppContent.handleSubmit (lines 297-344)

    The two awaits are run to completion: [answer] says how the [fetch]
    promise settles, and the response in it how [response.text()] does.
    The guard [!apiKey || !webhookUrl] is the last branch of the match: one
    of the two values is not truthy. *)
Definition handleSubmit (env : ImportMetaEnv) (answer : Settled Response) : M unit :=
  preventDefault ;;
  match truthy (VITE_PRINT_API_KEY env), truthy (VITE_PRINT_WEBHOOK_URL env) with
  | Some apiKey, Some webhookUrl =>
      setIsLoading true ;;
      setStatus (Some {| message := "Uploading and sending to printer...";
                         type := info |}) ;;
      formData <- new_FormData ;;
      try_finally
        (try_catch
           (promise <- fetch answer webhookUrl apiKey formData ;;
            response <- await promise ;;
            if ok response then
              setStatus (Some {| message := "Success! Print job sent.";
                                 type := success |}) ;;
              form_reset ;;
              when_ref (set_file_value "" ;; call_resetFileName)
            else
              errorText <- await (text response) ;;
              console_error [CStr "Print job failed:";
                             CNum (http_status response); CStr errorText] ;;
              setStatus
                (Some {| message :=
                           "Error: " ++
                           (if String.eqb errorText ""
                            then "Could not send print job."
                            else errorText);
                         type := error |}))
           (fun caught =>
              console_error [CStr "An unexpected error occurred:"; CThrown caught] ;;
              setStatus (Some {| message := "Error: An unexpected network error occurred.";
                                 type := error |})))
        (setIsLoading false)
  | _, _ =>
      setStatus (Some {| message :=
                           "Error: Missing configuration. Please check your .env.local file.";
                         type := error |})
  end.

(** The four statuses the flow can end with, and the one it shows while
    sending, for the statements below. *)
Definition missing_configuration : Status :=
  {| message := "Error: Missing configuration. Please check your .env.local file.";
     type := error |}.

Definition sending : Status :=
  {| message := "Uploading and sending to printer..."; type := info |}.

Definition job_sent : Status :=
  {| message := "Success! Print job sent."; type := success |}.

Definition job_rejected (errorText : string) : Status :=
  {| message :=
       "Error: " ++
       (if String.eqb errorText "" then "Could not send print job." else errorText);
     type := error |}.

Definition network_error : Status :=
  {| message := "Error: An unexpected network error occurred."; type := error |}.

(** The world a handler leaves behind. *)
Definition exec {A} (m : M A) (w : World) : World := snd (m w).

(** The submit button's [disabled={isLoading}]. *)
Definition submit_disabled (w : World) : bool := isLoading w.

(** The network requests of a trace. *)
Definition requests (l : list effect) : list effect :=
  filter (fun e => match e with Fetch _ _ _ => true | _ => false end) l.

(** *** The mounted application *)

(** The first commit: [useState] initial values, the ref attached to the
    rendered file input, [#copies] showing [defaultValue = 1]. *)
Definition first_render : World :=
  {| status := None; isLoading := false; fileInputRef_current := true;
     cleanup := None; fileName := None; count := JS.Num (JS.Fin 1);
     form := {| file_value := ""; resetFileName := None;
                copies_value := "1"; copies_defaultValue := "1" |};
     now := 0; timers := []; next_timer := O; log := [] |}.

(** ... followed by the mount effects of [PrintForm] and [AppContent]. *)
Definition mount : World :=
  status_effect (exec install_resetFileName first_render).

(** The form is mounted: the ref holds the file input and the reset hook is
    installed on it. *)
Definition mounted (w : World) : Prop :=
  fileInputRef_current w = true /\
  resetFileName (form w) = Some SetFileNameNull.

(** The timer discipline of the status effect: a pending timeout exists
    exactly when the effect's last run returned a cleanup for it, and then
    it is the only one and the status is a [success] or [error]. *)
Definition timers_wf (w : World) : Prop :=
  match cleanup w with
  | Some timer =>
      (exists at_, timers w = [(timer, at_)]) /\
      (timer < next_timer w)%nat /\
      (exists s, status w = Some s /\ terminal s = true)
  | None => timers w = []
  end.

(** [!v]: the variable is [undefined] or empty. *)
Definition missing (v : option string) : Prop := truthy v = None.

(** The submission failed: the request threw, or the response is not ok. *)
Definition failed (answer : Settled Response) : Prop :=
  match answer with
  | Rejected _ => True
  | Fulfilled response => ok response = false
  end.

(** [s] contains [sub]. *)
Definition contains (s sub : string) : Prop :=
  exists before after, s = (before ++ sub ++ after)%string.

(** A configured environment, for the examples. *)
Definition configured : ImportMetaEnv :=
  {| VITE_PRINT_API_KEY := Some "secret";
     VITE_PRINT_WEBHOOK_URL := Some "https://example.test/print";
     VITE_APP_TITLE := None |}.

(** The same without the API key. *)
Definition unconfigured : ImportMetaEnv :=
  {| VITE_PRINT_API_KEY := None;
     VITE_PRINT_WEBHOOK_URL := Some "https://example.test/print";
     VITE_APP_TITLE := None |}.

(** The mounted form after [report.pdf] has been picked: the browser sets
    the input's value, then [handleFileChange] runs. *)
Definition filled : World :=
  exec (handleFileChange ["report.pdf"])
    (set_form {| file_value := "C:\fakepath\report.pdf";
                 resetFileName := resetFileName (form mount);
                 copies_value := copies_value (form mount);
                 copies_defaultValue := copies_defaultValue (form mount) |}
       mount).

End App.

(** ** The stepper as a whole *)

Module Stepper.
Import JS CustomNumberInput.

(** What the user can do to the stepper: press minus or plus, edit the text
    to [text], leave the field. *)
Inductive action : Type :=
| Decrement
| Increment
| Change (text : string)
| Blur.

Definition act (min : Z) (a : action) (count : value) : value :=
  match a with
  | Decrement => handleDecrement min count
  | Increment => handleIncrement count
  | Change text => handleInputChange text count
  | Blur => handleInputBlur min count
  end.

(** The [count] after a run of actions, oldest first. *)
Definition run (min : Z) (actions : list action) (count : value) : value :=
  fold_left (fun c a => act min a c) actions count.

(** [useState(defaultValue)] *)
Definition initial (defaultValue : Z) : value := Num (Fin defaultValue).

(** [aria-valuenow={typeof count === 'number' ? count : min}] *)
Definition aria_valuenow (min : Z) (count : value) : number :=
  match count with
  | Num n => n
  | Str _ => Fin min
  end.

(** The string of [n] digits 1. *)
Fixpoint ones_string (n : nat) : string :=
  match n with
  | O => ""
  | S k => String "1" (ones_string k)
  end.

End Stepper.

(** ** ThemeProvider and ThemeToggle (lines 27-53 and 106-122) *)

Module Theme.

(** [localStorage], as the list of its items. *)
Definition Storage : Type := list (string * string).

Fixpoint getItem (key : string) (st : Storage) : option string :=
  match st with
  | (k, v) :: r => if String.eqb k key then Some v else getItem key r
  | [] => None
  end.

Definition setItem (key v : string) (st : Storage) : Storage :=
  (key, v) :: filter (fun p => negb (String.eqb (fst p) key)) st.

(** The class list of [document.documentElement]. *)
Definition classList_contains (token : string) (l : list string) : bool :=
  existsb (String.eqb token) l.

Definition classList_add (token : string) (l : list string) : list string :=
  if classList_contains token l then l else (l ++ [token])%list.

Definition classList_remove (token : string) (l : list string) : list string :=
  filter (fun t => negb (String.eqb t token)) l.

(** What the provider reads and writes in the browser; [prefers_dark] is
    [window.matchMedia('(prefers-color-scheme: dark)').matches]. *)
Record Browser : Type := {
  localStorage : Storage;
  classList : list string;
  prefers_dark : bool
}.

(** The [useState] initializer.  The stored item is cast to [Theme] without
    a check, so the state holds whatever non-empty string was stored. *)
Definition initial_theme (b : Browser) : string :=
  let fallback := if prefers_dark b then "dark" else "light" in
  match getItem "theme" (localStorage b) with
  | Some stored => if String.eqb stored "" then fallback else stored
  | None => fallback
  end.

(** The effect on [[theme]]. *)
Definition theme_effect (theme : string) (b : Browser) : Browser :=
  {| localStorage := setItem "theme" theme (localStorage b);
     classList :=
       if String.eqb theme "dark"
       then classList_add "dark" (classList b)
       else classList_remove "dark" (classList b);
     prefers_dark := prefers_dark b |}.

(** [prev => (prev === 'light' ? 'dark' : 'light')] *)
Definition toggleTheme (prev : string) : string :=
  if String.eqb prev "light" then "dark" else "light".

(** The provider: its [theme] state and the browser it has written to. *)
Record Provider : Type := { theme : string; browser : Browser }.

Definition mount_provider (b : Browser) : Provider :=
  let t := initial_theme b in
  {| theme := t; browser := theme_effect t b |}.

(** A click on the toggle: the state changes and the effect runs again. *)
Definition click_toggle (p : Provider) : Provider :=
  let t := toggleTheme (theme p) in
  {| theme := t; browser := theme_effect t (browser p) |}.

(** [ThemeToggle]'s label and icon. *)
Definition aria_label (theme : string) : string :=
  "Switch to " ++ (if String.eqb theme "light" then "dark" else "light") ++ " mode".

Inductive Icon : Type := MoonIcon | SunIcon.

Definition toggle_icon (theme : string) : Icon :=
  if String.eqb theme "light" then MoonIcon else SunIcon.

End Theme.

(** ** What is rendered, and the events of a session *)

Module Session.
Import App.

(** [StatusMessage]: nothing for [null], otherwise the paragraph [#status]
    with the class of the status type and the message as its text. *)
Definition statusStyles (t : StatusType) : string :=
  match t with
  | info => "text-blue-600 dark:text-blue-400"
  | success => "text-green-600 dark:text-green-400"
  | error => "text-red-600 dark:text-red-400"
  end.

Record Paragraph : Type := { id : string; className : string; children : string }.

Definition StatusMessage (status : option Status) : option Paragraph :=
  match status with
  | None => None
  | Some s =>
      Some {| id := "status";
              className := "text-sm font-medium text-center " ++ statusStyles (type s);
              children := message s |}
  end.

(** The submit button's text. *)
Definition submit_label (w : World) : string :=
  if isLoading w then "Sending..." else "Print Document".

(** The user picks [files] in the file dialog: the browser sets the input's
    value to the fake path of the first file (empty when there is none) and
    the change handler runs. *)
Definition pick_files (files : list string) : M unit :=
  (set_file_value
     match files with
     | first :: _ => "C:\fakepath\" ++ first
     | [] => ""
     end ;;
   handleFileChange files)%handler.

(** The events between which the application rests: a submission run to
    its end, time passing, a file being picked or removed. *)
Inductive event : Type :=
| Submit (env : ImportMetaEnv) (answer : Settled Response)
| Wait (ms : N)
| PickFiles (files : list string)
| RemoveFile.

Definition step (e : event) (w : World) : World :=
  match e with
  | Submit env answer => exec (handleSubmit env answer) w
  | Wait ms => elapse (Z.of_N ms) w
  | PickFiles files => exec (pick_files files) w
  | RemoveFile => exec handleRemoveFile w
  end.

(** The world after a run of events, oldest first, from the mounted
    application. *)
Definition after (events : list event) : World :=
  fold_left (fun w e => step e w) events mount.

(** What holds whenever the application rests: the form is mounted,
    nothing is loading, and a status is on screen exactly when its
    dismissal is pending, due within 5000 ms. *)
Definition at_rest (w : World) : Prop :=
  mounted w /\
  timers_wf w /\
  isLoading w = false /\
  match status w with
  | Some s =>
      terminal s = true /\
      exists timer at_, timers w = [(timer, at_)] /\ at_ <= now w + 5000
  | None => timers w = []
  end.

End Session.

(** ** The copies control as React commits it *)

Module Copies.
Import JS CustomNumberInput App.

(** [String(v)], the text React writes for [v]: a string as it is, an
    integer below 10^21 in magnitude in decimal digits.  Larger numbers
    print with an exponent, which is not modelled. *)
Definition ToString (v : value) : option string :=
  match v with
  | Str s => Some s
  | Num (Fin z) =>
      if Z.abs z <? 10 ^ 21
      then Some (NilZero.string_of_int (Z.to_int z))
      else None
  | Num PosInf => Some "Infinity"
  | Num NegInf => Some "-Infinity"
  | Num NaN => Some "NaN"
  end.

Definition set_count (c : value) (w : World) : World :=
  {| status := status w; isLoading := isLoading w;
     fileInputRef_current := fileInputRef_current w; cleanup := cleanup w;
     fileName := fileName w; count := c; form := form w; now := now w;
     timers := timers w; next_timer := next_timer w; log := log w |}.

(** React's commit of the controlled input [<input value={count} ...>] of
    [CustomNumberInput]: the text of [count] becomes the control's value,
    and React keeps the control's value attribute, which is its default
    value, in step with it. *)
Definition commit_copies (w : World) : World :=
  match ToString (count w) with
  | Some shown =>
      set_form {| file_value := file_value (form w);
                  resetFileName := resetFileName (form w);
                  copies_value := shown;
                  copies_defaultValue := shown |} w
  | None => w
  end.

(** An action on the stepper of [PrintForm], where [min] is 1, followed by
    the commit. *)
Definition stepper (a : Stepper.action) (w : World) : World :=
  commit_copies (set_count (Stepper.act 1 a (count w)) w).

(** The control shows [count], as after every commit. *)
Definition controlled (w : World) : Prop :=
  exists shown,
    ToString (count w) = Some shown /\
    copies_value (form w) = shown /\
    copies_defaultValue (form w) = shown.

(** The mounted form with [report.pdf] picked and 5 typed as the number of
    copies. *)
Definition five_copies : World := stepper (Stepper.Change "5") filled.

End Copies.

(** ** The submission while its request is pending *)

Module InFlight.
Import App.
Local Open Scope handler_scope.

(** [handleSubmit] up to its first [await] (lines 298-324): what has
    happened while the [fetch] promise is still pending. *)
Definition handleSubmit_until_await (env : ImportMetaEnv) : M unit :=
  preventDefault ;;
  match truthy (VITE_PRINT_API_KEY env), truthy (VITE_PRINT_WEBHOOK_URL env) with
  | Some apiKey, Some webhookUrl =>
      setIsLoading true ;;
      setStatus (Some {| message := "Uploading and sending to printer...";
                         type := info |}) ;;
      formData <- new_FormData ;;
      modify (emit (Fetch webhookUrl apiKey formData))
  | _, _ =>
      setStatus (Some {| message :=
                           "Error: Missing configuration. Please check your .env.local file.";
                         type := error |})
  end.

(** The rest of [handleSubmit] (lines 318-343), from the moment the
    [fetch] promise settles as [answer]. *)
Definition handleSubmit_from_await (answer : Settled Response) : M unit :=
  try_finally
    (try_catch
       (response <- await answer ;;
        if ok response then
          setStatus (Some {| message := "Success! Print job sent.";
                             type := success |}) ;;
          form_reset ;;
          when_ref (set_file_value "" ;; call_resetFileName)
        else
          errorText <- await (text response) ;;
          console_error [CStr "Print job failed:";
                         CNum (http_status response); CStr errorText] ;;
          setStatus
            (Some {| message :=
                       "Error: " ++
                       (if String.eqb errorText ""
                        then "Could not send print job."
                        else errorText);
                     type := error |}))
       (fun caught =>
          console_error [CStr "An unexpected error occurred:"; CThrown caught] ;;
          setStatus (Some {| message := "Error: An unexpected network error occurred.";
                             type := error |})))
    (setIsLoading false).

End InFlight.

(** * Properties *)

Module StepperFacts.
Import JS CustomNumberInput.

(** ** Number arithmetic *)

Lemma nearest_double_exact (z : Z) :
  - 9007199254740992 <= z <= 9007199254740992 -> nearest_double z = Fin z.
Proof.
  intros Hz. unfold nearest_double.
  change (2 ^ 53) with 9007199254740992.
  destruct (Z.leb_spec (Z.abs z) 9007199254740992) as [_ | Habs]; [reflexivity | lia].
Qed.

Lemma nearest_double_not_NaN (z : Z) : nearest_double z <> NaN.
Proof.
  unfold nearest_double.
  destruct (Z.abs z <=? 2 ^ 53); [discriminate |].
  cbv zeta.
  match goal with |- context [if ?b then (if _ then _ else _) else _] => destruct b end;
    [destruct (z <? 0) |]; discriminate.
Qed.

Lemma add_1_exact (c : Z) :
  - 9007199254740992 <= c + 1 <= 9007199254740992 ->
  add (Fin c) (Fin 1) = Fin (c + 1).
Proof. intros H. cbn [add]. now apply nearest_double_exact. Qed.

Lemma sub_1_exact (c : Z) :
  - 9007199254740992 <= c - 1 <= 9007199254740992 ->
  sub (Fin c) (Fin 1) = Fin (c - 1).
Proof.
  intros H. unfold sub. cbn [neg add].
  change (c + - (1)) with (c - 1). now apply nearest_double_exact.
Qed.

Lemma Math_max_Fin (a b : Z) : Math_max (Fin a) (Fin b) = Fin (Z.max a b).
Proof.
  cbn [Math_max lt]. destruct (Z.ltb_spec a b); f_equal; lia.
Qed.

(** Rounding at and above 2^53, where the doubles are 2 apart: ties go to
    the even significand. *)
Lemma nearest_double_examples :
  nearest_double 9007199254740992 = Fin 9007199254740992 /\
  nearest_double 9007199254740993 = Fin 9007199254740992 /\
  nearest_double 9007199254740994 = Fin 9007199254740994 /\
  nearest_double 9007199254740995 = Fin 9007199254740996 /\
  nearest_double (- 9007199254740993) = Fin (- 9007199254740992) /\
  nearest_double (10 ^ 400) = PosInf /\
  parseInt " +42px" = Fin 42 /\
  parseInt "-7.5" = Fin (-7) /\
  parseInt "abc" = NaN /\
  parseInt "-" = NaN.
Proof. vm_compute. repeat split. Qed.

Lemma Math_max_at_least (min : Z) (x : number) :
  x <> NaN -> at_least_min min (Num (Math_max (Fin min) x)) = true.
Proof.
  intros Hx. destruct x as [b | | |]; cbn [Math_max lt at_least_min].
  - destruct (Z.ltb_spec min b); apply Z.leb_le; lia.
  - reflexivity.
  - apply Z.leb_refl.
  - contradiction.
Qed.

Lemma add_not_NaN (n : number) (k : Z) : n <> NaN -> add n (Fin k) <> NaN.
Proof.
  destruct n; cbn [add]; intros H; try discriminate; try contradiction.
  apply nearest_double_not_NaN.
Qed.

(** ** The shape of [count] *)

Lemma ones_all_digits (s : string) : ones s = true -> all_digits s = true.
Proof.
  induction s as [| c r IH]; cbn [ones all_digits]; [reflexivity |].
  intros H. apply andb_true_iff in H as [Hc Hr].
  apply Ascii.eqb_eq in Hc. subst c. rewrite (IH Hr). reflexivity.
Qed.

Lemma ones_app_1 (s : string) : ones s = true -> ones (s ++ "1") = true.
Proof.
  induction s as [| c r IH]; cbn [ones append]; [reflexivity |].
  intros H. apply andb_true_iff in H as [Hc Hr].
  rewrite Hc, (IH Hr). reflexivity.
Qed.

Lemma count_shape_ToNumber (v : value) : count_shape v -> ToNumber v <> NaN.
Proof.
  destruct v as [n | s]; cbn [count_shape ToNumber]; [trivial |].
  intros H. unfold StringToNumber. rewrite (ones_all_digits _ H).
  apply nearest_double_not_NaN.
Qed.

(** Every handler of the stepper keeps [count] a number other than [NaN] or
    a string of ones, the strings [StringToNumber] is defined on. *)
Lemma count_shape_preserved (min : Z) (text : string) (count : value) :
  count_shape count ->
  count_shape (handleDecrement min count) /\
  count_shape (handleIncrement count) /\
  count_shape (handleInputChange text count) /\
  count_shape (handleInputBlur min count).
Proof.
  intros H. repeat split.
  - unfold handleDecrement, minus_1, sub. cbn [count_shape neg].
    pose proof (add_not_NaN _ (- (1)) (count_shape_ToNumber _ H)) as Hn.
    destruct (add (ToNumber count) (Fin (- (1)))); cbn [Math_max lt];
      try discriminate; try contradiction.
    destruct (min <? z); discriminate.
  - destruct count as [n | s]; cbn [handleIncrement plus_1 count_shape] in *.
    + now apply add_not_NaN.
    + now apply ones_app_1.
  - unfold handleInputChange. destruct (String.eqb text ""); [reflexivity |].
    cbv zeta. destruct (parseInt text); cbn [isNaN negb count_shape];
      try discriminate. exact H.
  - unfold handleInputBlur.
    destruct (is_empty_string count || lt_number count (Fin min));
      [cbn; discriminate | exact H].
Qed.

(** ** Blur *)

(** C6: on blur, a [count] that is the empty editing state, or an integer
    below [min], becomes exactly [min]; so clearing the field and blurring
    without retyping gives [min]. *)
Theorem handleInputBlur_coerces_to_min (min : Z) :
  (forall count,
      count = Str "" \/ (exists c, count = Num (Fin c) /\ c < min) ->
      handleInputBlur min count = Num (Fin min)) /\
  (forall count,
      handleInputBlur min (handleInputChange "" count) = Num (Fin min)).
Proof.
  split.
  - intros count [-> | [c [-> Hc]]]; unfold handleInputBlur.
    + reflexivity.
    + cbn [is_empty_string lt_number ToNumber lt orb].
      destruct (Z.ltb_spec c min); [reflexivity | lia].
  - intros count. reflexivity.
Qed.

Lemma handleInputBlur_coerces_to_min_witness :
  (0 < 1) /\ handleInputBlur 1 (Num (Fin 0)) = Num (Fin 1).
Proof.
  split; [reflexivity |].
  apply (proj1 (handleInputBlur_coerces_to_min 1)).
  right. exists 0. split; reflexivity.
Defined.

(** A value at or above [min] is left alone by blur. *)
Lemma handleInputBlur_keeps (min c : Z) :
  min <= c -> handleInputBlur min (Num (Fin c)) = Num (Fin c).
Proof.
  intros H. unfold handleInputBlur.
  cbn [is_empty_string lt_number ToNumber lt orb].
  destruct (Z.ltb_spec c min); [lia | reflexivity].
Qed.

(** ** Decrement *)

Lemma handleDecrement_at_least (min : Z) (v : value) :
  ToNumber v <> NaN -> at_least_min min (handleDecrement min v) = true.
Proof.
  intros H. unfold handleDecrement. apply Math_max_at_least.
  unfold minus_1, sub. cbn [neg]. now apply add_not_NaN.
Qed.

Lemma at_least_min_ToNumber (min : Z) (v : value) :
  at_least_min min v = true -> ToNumber v <> NaN.
Proof.
  destruct v as [[c | | |] | s]; cbn; intros H; discriminate.
Qed.

(** C7 as stated fails above 2^53, where [current - 1] is no longer a
    number: typing 9007199254740994 gives that value, and one decrement
    gives 9007199254740992, not 9007199254740993. *)
Lemma handleDecrement_rounds_above_2_53 :
  handleInputChange "9007199254740994" (Num (Fin 1)) = Num (Fin 9007199254740994) /\
  handleDecrement 1 (Num (Fin 9007199254740994)) = Num (Fin 9007199254740992) /\
  handleDecrement 1 (Num (Fin 9007199254740994))
    <> Num (Fin (Z.max 1 (9007199254740994 - 1))).
Proof.
  repeat split; try (vm_compute; reflexivity).
  vm_compute. discriminate.
Qed.

(** C7, amended: for an integer [current] with [current - 1] within
    2^53 in magnitude, one decrement gives [max(min, current - 1)]; and from
    any value at least [min], no run of decrements goes below [min]. *)
Theorem handleDecrement_clamps_at_min (min : Z) :
  (forall c,
      - 9007199254740992 <= c - 1 <= 9007199254740992 ->
      handleDecrement min (Num (Fin c)) = Num (Fin (Z.max min (c - 1)))) /\
  (forall v n,
      at_least_min min v = true ->
      at_least_min min (Nat.iter n (handleDecrement min) v) = true).
Proof.
  split.
  - intros c Hc. unfold handleDecrement, minus_1. cbn [ToNumber].
    rewrite (sub_1_exact c Hc). now rewrite Math_max_Fin.
  - intros v n Hv. induction n as [| n IH]; [exact Hv |].
    rewrite Nat.iter_succ. apply handleDecrement_at_least.
    eapply at_least_min_ToNumber. exact IH.
Qed.

Lemma handleDecrement_clamps_at_min_witness :
  handleDecrement 1 (Num (Fin 1)) = Num (Fin 1) /\
  at_least_min 1 (Nat.iter 5 (handleDecrement 1) (Num (Fin 3))) = true.
Proof.
  split.
  - apply (proj1 (handleDecrement_clamps_at_min 1) 1). lia.
  - apply (proj2 (handleDecrement_clamps_at_min 1) (Num (Fin 3)) 5%nat).
    reflexivity.
Defined.

(** ** Increment *)

Lemma handleIncrement_exact (c : Z) :
  - 9007199254740992 <= c < 9007199254740992 ->
  handleIncrement (Num (Fin c)) = Num (Fin (c + 1)).
Proof.
  intros Hc. unfold handleIncrement, plus_1.
  rewrite add_1_exact by lia. reflexivity.
Qed.

Lemma handleIncrement_run (min : Z) (n : nat) :
  - 9007199254740992 <= min ->
  min + Z.of_nat n <= 9007199254740992 ->
  Nat.iter n handleIncrement (Num (Fin min)) = Num (Fin (min + Z.of_nat n)).
Proof.
  intros Hlo. induction n as [| n IH]; intros Hhi.
  - cbn [Nat.iter nat_rect]. f_equal. f_equal. lia.
  - rewrite Nat.iter_succ, IH by lia. rewrite handleIncrement_exact by lia.
    f_equal. f_equal. lia.
Qed.

Lemma handleIncrement_fixed_at_2_53 (n : nat) :
  Nat.iter n handleIncrement (Num (Fin 9007199254740992))
  = Num (Fin 9007199254740992).
Proof.
  induction n as [| n IH]; [reflexivity |].
  rewrite Nat.iter_succ, IH. vm_compute. reflexivity.
Qed.

(** Increments alone never take a safe integer past 2^53. *)
Lemma handleIncrement_bounded (min : Z) (n : nat) :
  - 9007199254740992 <= min <= 9007199254740992 ->
  exists c, Nat.iter n handleIncrement (Num (Fin min)) = Num (Fin c) /\
            - 9007199254740992 <= c <= 9007199254740992.
Proof.
  intros Hmin. induction n as [| n [c [IH Hc]]].
  - exists min. split; [reflexivity | exact Hmin].
  - rewrite Nat.iter_succ, IH.
    destruct (Z.eq_dec c 9007199254740992) as [-> | Hne].
    + exists 9007199254740992. split; [vm_compute; reflexivity | lia].
    + exists (c + 1). split; [| lia].
      now apply handleIncrement_exact; lia.
Qed.

(** C8 as stated fails at 2^53: [prev + 1] rounds back to [prev].  The
    value can be typed, and it is also where 2^53 - 1 increments from
    [min = 1] arrive, so that 2^53 increments from 1 give 2^53 and not
    1 + 2^53. *)
Lemma handleIncrement_stuck_at_2_53 :
  handleInputChange "9007199254740992" (Num (Fin 1)) = Num (Fin 9007199254740992) /\
  handleIncrement (Num (Fin 9007199254740992)) = Num (Fin 9007199254740992) /\
  handleIncrement (Num (Fin 9007199254740992))
    <> Num (Fin (9007199254740992 + 1)) /\
  Nat.iter (Z.to_nat 9007199254740992) handleIncrement (Num (Fin 1))
    <> Num (Fin (1 + 9007199254740992)).
Proof.
  split; [vm_compute; reflexivity |].
  split; [vm_compute; reflexivity |].
  split; [vm_compute; discriminate |].
  assert (E : Z.to_nat 9007199254740992 = S (Z.to_nat 9007199254740991)).
  { rewrite <- Z2Nat.inj_succ by lia. f_equal. }
  rewrite E, Nat.iter_succ.
  rewrite handleIncrement_run by (rewrite ?Z2Nat.id; lia).
  rewrite Z2Nat.id by lia.
  vm_compute. discriminate.
Qed.

(** C8, amended: one increment takes an integer [c] with
    [-2^53 <= c < 2^53] to [c + 1], and the handler applies no bound of its
    own; so [n] increments from [min] give [min + n] as long as
    [-2^53 <= min] and [min + n <= 2^53]. *)
Theorem handleIncrement_adds_one :
  (forall c,
      - 9007199254740992 <= c < 9007199254740992 ->
      handleIncrement (Num (Fin c)) = Num (Fin (c + 1))) /\
  (forall min n,
      - 9007199254740992 <= min ->
      min + Z.of_nat n <= 9007199254740992 ->
      Nat.iter n handleIncrement (Num (Fin min)) = Num (Fin (min + Z.of_nat n))).
Proof.
  split.
  - exact handleIncrement_exact.
  - exact handleIncrement_run.
Qed.

Lemma handleIncrement_adds_one_witness :
  handleIncrement (Num (Fin 1)) = Num (Fin 2) /\
  Nat.iter 3 handleIncrement (Num (Fin 1)) = Num (Fin 4).
Proof.
  split.
  - apply (proj1 handleIncrement_adds_one 1). lia.
  - apply (proj2 handleIncrement_adds_one 1 3%nat); lia.
Defined.

(** ** Free-text edits *)

Lemma trim_start_split (s : string) :
  exists ws, s = (ws ++ trim_start s)%string /\ all_white_space ws = true.
Proof.
  induction s as [| c r [ws [E Hws]]].
  - exists "". split; reflexivity.
  - cbn [trim_start]. destruct (is_white_space c) eqn:Hc.
    + exists (String c ws). split.
      * cbn [append]. now rewrite <- E.
      * cbn [all_white_space]. now rewrite Hc, Hws.
    + exists "". split; reflexivity.
Qed.

Lemma trim_start_white (ws t : string) :
  all_white_space ws = true -> trim_start (ws ++ t) = trim_start t.
Proof.
  induction ws as [| c r IH]; cbn [all_white_space append trim_start];
    [reflexivity |].
  intros H. apply andb_true_iff in H as [Hc Hr]. rewrite Hc. now apply IH.
Qed.

Lemma is_digit_not_sign_nor_space (d : ascii) :
  is_digit d = true ->
  is_white_space d = false /\ Ascii.eqb d "-" = false /\ Ascii.eqb d "+" = false.
Proof.
  destruct d as [[] [] [] [] [] [] [] []]; vm_compute; intros H;
    try discriminate H; repeat split; reflexivity.
Qed.

Lemma parseInt_reads_prefix (s : string) :
  parseInt s <> NaN -> has_integer_prefix s.
Proof.
  destruct (trim_start_split s) as [ws [E Hws]].
  unfold parseInt. destruct (trim_start s) as [| c r] eqn:Ht.
  - intros H. now contradiction H.
  - destruct (Ascii.eqb_spec c "-") as [-> | Hminus];
      [| destruct (Ascii.eqb_spec c "+") as [-> | Hplus]].
    + destruct r as [| d r']; [intros H; now contradiction H |].
      destruct (is_digit d) eqn:Hd; [| intros H; now contradiction H].
      intros _. exists ws, "-", d, r'. repeat split; auto.
    + destruct r as [| d r']; [intros H; now contradiction H |].
      destruct (is_digit d) eqn:Hd; [| intros H; now contradiction H].
      intros _. exists ws, "+", d, r'. repeat split; auto.
    + destruct (is_digit c) eqn:Hd; [| intros H; now contradiction H].
      intros _. exists ws, "", c, r. repeat split; auto.
Qed.

Lemma prefix_read_by_parseInt (s : string) :
  has_integer_prefix s -> parseInt s <> NaN.
Proof.
  intros [ws [sign [d [rest [-> [Hws [Hsign Hd]]]]]]].
  destruct (is_digit_not_sign_nor_space d Hd) as [Hw [Hm Hp]].
  unfold parseInt. rewrite (trim_start_white _ _ Hws).
  destruct Hsign as [-> | [-> | ->]]; cbn [append trim_start].
  - rewrite Hw, Hm, Hp, Hd. apply nearest_double_not_NaN.
  - change (is_white_space "+") with false. cbn [Ascii.eqb Bool.eqb].
    rewrite Hd. apply nearest_double_not_NaN.
  - change (is_white_space "-") with false. cbn [Ascii.eqb Bool.eqb].
    rewrite Hd. apply nearest_double_not_NaN.
Qed.

(** C10: a typed text that is not empty and that [parseInt] maps to [NaN],
    such as ["abc"], leaves [count] as it is; a change of [count] therefore
    comes from the empty text, which gives the empty editing state, or from
    a text that starts with an integer, and these are exactly the texts
    [parseInt] reads a number from. *)
Theorem handleInputChange_ignores_unparseable (text : string) (count : value) :
  (text <> "" -> parseInt text = NaN -> handleInputChange text count = count) /\
  (handleInputChange text count <> count ->
   text = "" \/ has_integer_prefix text) /\
  (has_integer_prefix text <-> parseInt text <> NaN) /\
  handleInputChange "" count = Str "" /\
  handleInputChange "abc" count = count.
Proof.
  split; [| split; [| split; [split |]]].
  - intros Hne Hnan. unfold handleInputChange.
    destruct (String.eqb_spec text ""); [contradiction |].
    cbv zeta. rewrite Hnan. reflexivity.
  - unfold handleInputChange.
    destruct (String.eqb_spec text ""); [now left |].
    cbv zeta. intros H. right. apply parseInt_reads_prefix.
    intros Hnan. apply H. rewrite Hnan. reflexivity.
  - apply prefix_read_by_parseInt.
  - apply parseInt_reads_prefix.
  - split; reflexivity.
Qed.

Lemma handleInputChange_ignores_unparseable_witness :
  "x12" <> "" /\ parseInt "x12" = NaN /\
  handleInputChange "x12" (Num (Fin 7)) = Num (Fin 7).
Proof.
  split; [discriminate |]. split; [reflexivity |].
  apply (proj1 (handleInputChange_ignores_unparseable "x12" (Num (Fin 7))));
    [discriminate | reflexivity].
Defined.

End StepperFacts.

Module SubmissionFacts.
Import App.

(** ** What [setStatus] touches *)

Lemma setStatus_world_status (s : Status) (w : World) :
  status (setStatus_world (Some s) w) = Some s.
Proof.
  unfold setStatus_world, commit_status, status_effect. cbn.
  destruct (terminal s); reflexivity.
Qed.

Lemma setStatus_world_frame (s : option Status) (w : World) :
  let w' := setStatus_world s w in
  isLoading w' = isLoading w /\ fileInputRef_current w' = fileInputRef_current w /\
  fileName w' = fileName w /\ count w' = count w /\ form w' = form w /\
  now w' = now w /\ log w' = log w.
Proof.
  unfold setStatus_world, commit_status, status_effect, run_cleanup.
  destruct s as [s |]; [| destruct (status w)]; cbn;
    try destruct (terminal _); destruct (cleanup w); cbn; repeat split.
Qed.

(** ** The timer discipline *)

Lemma run_cleanup_clears (w : World) :
  timers_wf w -> timers (run_cleanup w) = [].
Proof.
  unfold timers_wf, run_cleanup. destruct (cleanup w) as [timer |].
  - intros [[at_ Hq] _]. cbn. rewrite Hq. cbn. now rewrite Nat.eqb_refl.
  - trivial.
Qed.

Lemma commit_terminal (w : World) (s : Status) :
  timers_wf w -> terminal s = true ->
  let w1 := setStatus_world (Some s) w in
  timers w1 = [(next_timer w, now w + 5000)] /\
  cleanup w1 = Some (next_timer w) /\
  next_timer w1 = S (next_timer w) /\
  status w1 = Some s /\ now w1 = now w.
Proof.
  intros Hwf Hs. pose proof (run_cleanup_clears w Hwf) as Hq.
  unfold setStatus_world, commit_status, status_effect. cbn. rewrite Hs.
  unfold run_cleanup in *. destruct (cleanup w); cbn in *; rewrite Hq; cbn;
    repeat split.
Qed.

Lemma commit_info (w : World) (s : Status) :
  timers_wf w -> terminal s = false ->
  let w1 := setStatus_world (Some s) w in
  timers w1 = [] /\ cleanup w1 = None /\ next_timer w1 = next_timer w /\
  status w1 = Some s /\ now w1 = now w.
Proof.
  intros Hwf Hs. pose proof (run_cleanup_clears w Hwf) as Hq.
  unfold setStatus_world, commit_status, status_effect. cbn. rewrite Hs.
  unfold run_cleanup in *. destruct (cleanup w); cbn in *; rewrite Hq;
    repeat split.
Qed.

Lemma commit_null (w : World) :
  timers_wf w ->
  let w1 := setStatus_world None w in
  timers w1 = [] /\ cleanup w1 = None /\ status w1 = None /\ now w1 = now w.
Proof.
  intros Hwf. pose proof (run_cleanup_clears w Hwf) as Hq.
  unfold setStatus_world. destruct (status w) as [s |] eqn:Hst.
  - unfold commit_status, status_effect. cbn.
    unfold run_cleanup in *. destruct (cleanup w); cbn in *; rewrite Hq;
      repeat split.
  - unfold timers_wf in Hwf. destruct (cleanup w) as [timer |].
    + destruct Hwf as [_ [_ [s [Hs _]]]]. congruence.
    + repeat split; assumption.
Qed.

Lemma setStatus_world_wf (s : option Status) (w : World) :
  timers_wf w -> timers_wf (setStatus_world s w).
Proof.
  intros Hwf. destruct s as [s |].
  - destruct (terminal s) eqn:Hs.
    + destruct (commit_terminal w s Hwf Hs) as [Hq [Hc [Hn [Hst _]]]].
      unfold timers_wf. rewrite Hc, Hq, Hn, Hst. repeat split.
      * now exists (now w + 5000).
      * apply Nat.lt_succ_diag_r.
      * now exists s.
    + destruct (commit_info w s Hwf Hs) as [Hq [Hc _]].
      unfold timers_wf. now rewrite Hc.
  - destruct (commit_null w Hwf) as [Hq [Hc _]].
    unfold timers_wf. now rewrite Hc.
Qed.

Lemma timers_wf_ext (w w' : World) :
  cleanup w' = cleanup w -> timers w' = timers w ->
  next_timer w' = next_timer w -> status w' = status w ->
  timers_wf w -> timers_wf w'.
Proof.
  unfold timers_wf. intros -> -> -> ->. trivial.
Qed.

(** Time passing with nothing due only moves the clock. *)
Lemma elapse_idle (dt : Z) (w : World) :
  (forall timer at_, In (timer, at_) (timers w) -> now w + dt < at_) ->
  elapse dt w = set_now (now w + dt) w.
Proof.
  unfold elapse. intros H. f_equal.
  destruct (timers w) as [| [timer at_] rest]; [reflexivity |].
  cbn [run_due]. specialize (H timer at_ (or_introl eq_refl)).
  destruct (Z.leb_spec at_ (now w + dt)); [lia | reflexivity].
Qed.

(** The one pending timeout fires once its time has come. *)
Lemma elapse_fires (dt : Z) (w : World) (timer : TimerId) (at_ : Z) :
  timers_wf w -> timers w = [(timer, at_)] -> at_ <= now w + dt ->
  status (elapse dt w) = None /\ timers (elapse dt w) = [] /\
  cleanup (elapse dt w) = None /\ next_timer (elapse dt w) = next_timer w.
Proof.
  intros Hwf Hq Hdue. unfold elapse. rewrite Hq. cbn [run_due].
  destruct (Z.leb_spec at_ (now w + dt)); [| lia].
  unfold pending. rewrite Hq. cbn [existsb fst]. rewrite Nat.eqb_refl.
  cbn [orb]. unfold fire. rewrite Hq. cbn [filter fst].
  rewrite Nat.eqb_refl. cbn [negb].
  unfold timers_wf in Hwf. destruct (cleanup w) as [c |] eqn:Hc;
    [| congruence].
  destruct Hwf as [_ [_ [s [Hs _]]]].
  unfold setStatus_world. cbn. rewrite Hs.
  unfold commit_status, status_effect, run_cleanup. cbn. rewrite Hc. cbn.
  repeat split.
Qed.

Lemma elapse_wf (dt : Z) (w : World) : timers_wf w -> timers_wf (elapse dt w).
Proof.
  intros Hwf. pose proof Hwf as Hwf'. unfold timers_wf in Hwf'.
  destruct (cleanup w) as [timer |] eqn:Hc.
  - destruct Hwf' as [[at_ Hq] _].
    destruct (Z.le_gt_cases at_ (now w + dt)) as [Hdue | Hnot].
    + destruct (elapse_fires dt w timer at_ Hwf Hq Hdue) as [_ [Hq' [Hc' _]]].
      unfold timers_wf. now rewrite Hc'.
    + rewrite elapse_idle.
      * revert Hwf. now apply timers_wf_ext.
      * rewrite Hq. intros t a [E | []]. inversion E. subst. lia.
  - rewrite elapse_idle.
    + revert Hwf. now apply timers_wf_ext.
    + rewrite Hwf'. intros t a [].
Qed.

Lemma status_kept_before_deadline (w : World) (s : Status) (dt : Z) :
  timers_wf w -> 0 <= dt < 5000 ->
  status (elapse dt (setStatus_world (Some s) w)) = Some s.
Proof.
  intros Hwf Hdt. destruct (terminal s) eqn:Hs.
  - destruct (commit_terminal w s Hwf Hs) as [Hq [_ [_ [Hst Hnow]]]].
    rewrite elapse_idle; [exact Hst |].
    rewrite Hq, Hnow. intros t a [E | []]. inversion E. lia.
  - destruct (commit_info w s Hwf Hs) as [Hq [_ [_ [Hst _]]]].
    rewrite elapse_idle; [exact Hst |].
    rewrite Hq. intros t a [].
Qed.

Lemma status_dismissed_at_deadline (w : World) (s : Status) (dt : Z) :
  timers_wf w -> terminal s = true -> 5000 <= dt ->
  status (elapse dt (setStatus_world (Some s) w)) = None.
Proof.
  intros Hwf Hs Hdt.
  destruct (commit_terminal w s Hwf Hs) as [Hq [_ [_ [_ Hnow]]]].
  eapply elapse_fires; [now apply setStatus_world_wf | exact Hq |].
  rewrite Hnow. lia.
Qed.

Lemma status_info_stays (w : World) (s : Status) (dt : Z) :
  timers_wf w -> terminal s = false ->
  status (elapse dt (setStatus_world (Some s) w)) = Some s.
Proof.
  intros Hwf Hs.
  destruct (commit_info w s Hwf Hs) as [Hq [_ [_ [Hst _]]]].
  rewrite elapse_idle; [exact Hst |].
  rewrite Hq. intros t a [].
Qed.

Lemma previous_timer_cancelled (w : World) (s : Status) (timer : TimerId) :
  timers_wf w -> pending timer w = true ->
  pending timer (setStatus_world (Some s) w) = false.
Proof.
  intros Hwf Hp. unfold pending in *.
  assert (Hlt : (timer < next_timer w)%nat).
  { unfold timers_wf in Hwf. destruct (cleanup w) as [c |].
    - destruct Hwf as [[at_ Hq] [Hlt _]]. rewrite Hq in Hp. cbn in Hp.
      rewrite orb_false_r in Hp. apply Nat.eqb_eq in Hp. now subst c.
    - rewrite Hwf in Hp. discriminate. }
  destruct (terminal s) eqn:Hs.
  - destruct (commit_terminal w s Hwf Hs) as [Hq _]. rewrite Hq. cbn.
    rewrite orb_false_r. apply Nat.eqb_neq. lia.
  - destruct (commit_info w s Hwf Hs) as [Hq _]. now rewrite Hq.
Qed.

(** C5: when the status becomes a [success] or an [error], one timer is
    armed for 5000 ms from now; the status stays until then and is cleared
    to absent once 5000 ms have passed with no other event.  An [info]
    status arms nothing and stays.  Any new status cancels the timer that
    was pending, so within 5000 ms of the newest status that status is
    still shown, whatever was armed before it. *)
Theorem auto_dismiss_last_status_wins (w : World) (s : Status) :
  timers_wf w ->
  let w1 := setStatus_world (Some s) w in
  (type s = success \/ type s = error ->
     timers w1 = [(next_timer w, now w + 5000)] /\
     (forall dt, 0 <= dt < 5000 -> status (elapse dt w1) = Some s) /\
     (forall dt, 5000 <= dt -> status (elapse dt w1) = None)) /\
  (type s = info ->
     timers w1 = [] /\ forall dt, status (elapse dt w1) = Some s) /\
  (forall timer, pending timer w = true -> pending timer w1 = false) /\
  (forall dt s2,
     0 <= dt < 5000 ->
     let w2 := setStatus_world (Some s2) (elapse dt w1) in
     (forall timer, pending timer (elapse dt w1) = true -> pending timer w2 = false) /\
     (forall dt2, 0 <= dt2 < 5000 -> status (elapse dt2 w2) = Some s2)).
Proof.
  intros Hwf w1. repeat split.
  - assert (Hs : terminal s = true)
      by (unfold terminal; destruct H as [-> | ->]; reflexivity).
    now destruct (commit_terminal w s Hwf Hs) as [Hq _].
  - intros dt Hdt. now apply status_kept_before_deadline.
  - intros dt Hdt. apply status_dismissed_at_deadline; auto.
    unfold terminal; destruct H as [-> | ->]; reflexivity.
  - assert (Hs : terminal s = false) by (unfold terminal; now rewrite H).
    now destruct (commit_info w s Hwf Hs) as [Hq _].
  - intros dt. apply status_info_stays; auto.
    unfold terminal; now rewrite H.
  - intros timer. now apply previous_timer_cancelled.
  - intros timer. apply previous_timer_cancelled.
    apply elapse_wf. now apply setStatus_world_wf.
  - intros dt2 Hdt2. apply status_kept_before_deadline; auto.
    apply elapse_wf. now apply setStatus_world_wf.
Qed.

Lemma auto_dismiss_last_status_wins_witness :
  timers_wf mount /\
  status (elapse 5000
            (setStatus_world
               (Some {| message := "Success! Print job sent."; type := success |})
               mount)) = None.
Proof.
  assert (Hwf : timers_wf mount) by reflexivity.
  split; [exact Hwf |].
  destruct (auto_dismiss_last_status_wins mount
              {| message := "Success! Print job sent."; type := success |} Hwf)
    as [Harmed _].
  destruct (Harmed (or_introl eq_refl)) as [_ [_ Hclear]].
  apply Hclear. lia.
Defined.

(** ** The submission flow *)

Ltac unfold_handler :=
  unfold exec, handleSubmit, bind, try_finally, try_catch, setStatus,
    setIsLoading, setFileName, console_error, preventDefault, new_FormData,
    fetch, await, form_reset, when_ref, set_file_value, call_resetFileName,
    modify, gets, ret, throw.

(** Open the world down to the ref, the effect's cleanup and the hook, the
    three things the handler branches on besides its inputs. *)
Ltac open_world w :=
  destruct w as [st il ref [timer |] fn ct [fv [[] |] cv cd] nw tq nt lg].

(** Split on how the configuration reads and how the request ends. *)
Ltac outcome_cases env answer r Hok Htext :=
  unfold handleSubmit;
  destruct (truthy (VITE_PRINT_API_KEY env)) as [apiKey |] eqn:Hkey;
    [ destruct (truthy (VITE_PRINT_WEBHOOK_URL env)) as [webhookUrl |] eqn:Hurl;
      [ destruct answer as [r | caught];
        [ destruct (ok r) eqn:Hok;
          [ | destruct (text r) as [errorText | caught] eqn:Htext ] | ] | ] | ].

Ltac run_handler w Hok Htext :=
  open_world w; unfold_handler; cbn beta iota; rewrite ?Hok, ?Htext;
  try match goal with ref : bool |- _ => destruct ref end; lazy.

Lemma ok_2xx (response : Response) :
  ok response = true <-> 200 <= http_status response <= 299.
Proof.
  unfold ok. rewrite andb_true_iff, !Z.leb_le. tauto.
Qed.

(** The handler always completes normally: nothing escapes its [catch]. *)
Lemma handleSubmit_completes env answer w :
  fst (handleSubmit env answer w) = Ok tt.
Proof.
  outcome_cases env answer r Hok Htext; run_handler w Hok Htext; reflexivity.
Qed.

(** Where the flow leaves the status and its timer: as a [setStatus] of the
    final status would, after the [info] status when the request was sent;
    the final status is always a [success] or an [error]. *)
Lemma handleSubmit_status_view env answer w :
  exists final before,
    terminal final = true /\
    (before = w \/ before = setStatus_world (Some sending) w) /\
    let w' := exec (handleSubmit env answer) w in
    let v := setStatus_world (Some final) before in
    cleanup w' = cleanup v /\ timers w' = timers v /\
    next_timer w' = next_timer v /\ status w' = status v /\ now w' = now v.
Proof.
  outcome_cases env answer r Hok Htext.
  - exists job_sent, (setStatus_world (Some sending) w).
    split; [reflexivity |]. split; [now right |].
    run_handler w Hok Htext; repeat split; reflexivity.
  - exists (job_rejected errorText), (setStatus_world (Some sending) w).
    split; [reflexivity |]. split; [now right |].
    run_handler w Hok Htext; repeat split; reflexivity.
  - exists network_error, (setStatus_world (Some sending) w).
    split; [reflexivity |]. split; [now right |].
    run_handler w Hok Htext; repeat split; reflexivity.
  - exists network_error, (setStatus_world (Some sending) w).
    split; [reflexivity |]. split; [now right |].
    run_handler w Hok Htext; repeat split; reflexivity.
  - exists missing_configuration, w.
    split; [reflexivity |]. split; [now left |].
    run_handler w Hok Htext; repeat split; reflexivity.
  - exists missing_configuration, w.
    split; [reflexivity |]. split; [now left |].
    run_handler w Hok Htext; repeat split; reflexivity.
Qed.

(** [handleSubmit] keeps the timer discipline, whatever the outcome. *)
Lemma handleSubmit_timers_wf env answer w :
  timers_wf w -> timers_wf (exec (handleSubmit env answer) w).
Proof.
  intros Hwf.
  destruct (handleSubmit_status_view env answer w)
    as [final [before [_ [Hb [Hc [Hq [Hn [Hs _]]]]]]]].
  eapply timers_wf_ext; [exact Hc | exact Hq | exact Hn | exact Hs |].
  apply setStatus_world_wf.
  destruct Hb as [-> | ->]; [exact Hwf | now apply setStatus_world_wf].
Qed.

(** The status a submission ends with stays for 5000 ms and is gone after
    that, when nothing else happens. *)
Lemma handleSubmit_status_dismissed env answer w :
  timers_wf w ->
  let w' := exec (handleSubmit env answer) w in
  (forall dt, 0 <= dt < 5000 -> status (elapse dt w') = status w') /\
  (forall dt, 5000 <= dt -> status (elapse dt w') = None).
Proof.
  intros Hwf w'. pose proof (handleSubmit_timers_wf env answer w Hwf) as Hwf'.
  destruct (handleSubmit_status_view env answer w)
    as [final [before [Hfinal [Hb [_ [Hq [_ [_ Hnow]]]]]]]].
  fold w' in Hwf', Hq, Hnow. cbv zeta in Hq, Hnow.
  assert (Hbefore : timers_wf before)
    by (destruct Hb as [-> | ->]; [exact Hwf | now apply setStatus_world_wf]).
  destruct (commit_terminal before final Hbefore Hfinal) as [Hq0 [_ [_ [_ Hnow0]]]].
  rewrite Hq0 in Hq. rewrite Hnow0 in Hnow. split; intros dt Hdt.
  - rewrite elapse_idle; [reflexivity |].
    rewrite Hq, Hnow. intros t a [E | []]. inversion E. lia.
  - eapply elapse_fires; [exact Hwf' | exact Hq |]. rewrite Hnow. lia.
Qed.

(** ** The file selection *)

Lemma handleFileChange_records (files : list string) (w : World) :
  fileName (exec (handleFileChange files) w) = List.hd_error files.
Proof. destruct files; reflexivity. Qed.

(** Removing the file empties the input and forgets the name. *)
Lemma handleRemoveFile_clears (w : World) :
  fileInputRef_current w = true ->
  let w' := exec handleRemoveFile w in
  fileName w' = None /\ file_value (form w') = "".
Proof.
  intros Href. unfold exec, handleRemoveFile, when_ref, bind, gets.
  rewrite Href. split; reflexivity.
Qed.

Lemma PrintForm_handlers_mounted (files : list string) (w : World) :
  mounted w ->
  mounted (exec (handleFileChange files) w) /\ mounted (exec handleRemoveFile w).
Proof.
  intros [Href Hhook]. split.
  - destruct files; split; assumption.
  - unfold exec, handleRemoveFile, when_ref, bind, gets.
    rewrite Href. split; assumption.
Qed.

(** The mount effects leave the form mounted and no timer pending, and the
    handler keeps the form mounted. *)
Lemma mount_ready : mounted mount /\ timers_wf mount.
Proof. repeat split. Qed.

Lemma handleSubmit_mounted env answer w :
  mounted w -> mounted (exec (handleSubmit env answer) w).
Proof.
  intros [Href Hhook].
  outcome_cases env answer r Hok Htext; run_handler w Hok Htext;
    lazy in Href, Hhook; try discriminate; split; reflexivity.
Qed.

(** No path of the handler writes the stepper's [count]. *)
Remark handleSubmit_keeps_count env answer w :
  count (exec (handleSubmit env answer) w) = count w.
Proof.
  outcome_cases env answer r Hok Htext; run_handler w Hok Htext; reflexivity.
Qed.

(** C1: when [apiKey] or [webhookUrl] is missing, the handler sets the
    error status with exactly the configuration message and sends nothing:
    the trace gains the [preventDefault] only, so no [fetch] is made. *)
Theorem handleSubmit_missing_configuration env answer w :
  missing (VITE_PRINT_API_KEY env) \/ missing (VITE_PRINT_WEBHOOK_URL env) ->
  let w' := exec (handleSubmit env answer) w in
  status w' =
    Some {| message :=
              "Error: Missing configuration. Please check your .env.local file.";
            type := error |} /\
  log w' = PreventDefault :: log w /\
  requests (log w') = requests (log w).
Proof.
  unfold missing. intros Hmissing.
  outcome_cases env answer r Hok Htext;
    try (exfalso; destruct Hmissing; congruence);
    run_handler w Hok Htext; repeat split; reflexivity.
Qed.

Lemma handleSubmit_missing_configuration_witness :
  missing (VITE_PRINT_API_KEY unconfigured) /\
  requests (log (exec (handleSubmit unconfigured (Rejected (Thrown "offline"))) filled))
  = requests (log filled).
Proof.
  split; [reflexivity |].
  apply (handleSubmit_missing_configuration
           unconfigured (Rejected (Thrown "offline")) filled).
  left. reflexivity.
Defined.

(** On a 2xx response the status becomes the success status with exactly
    its message, the DOM form is what [form.reset()] leaves, the file input
    is empty and the recorded file name is cleared through the reset hook,
    and [isLoading] is false when the handler is done. *)
Theorem handleSubmit_success env response w apiKey webhookUrl :
  truthy (VITE_PRINT_API_KEY env) = Some apiKey ->
  truthy (VITE_PRINT_WEBHOOK_URL env) = Some webhookUrl ->
  200 <= http_status response <= 299 ->
  mounted w ->
  let w' := exec (handleSubmit env (Fulfilled response)) w in
  status w' = Some {| message := "Success! Print job sent."; type := success |} /\
  form w' = reset (form w) /\
  file_value (form w') = "" /\
  copies_value (form w') = copies_defaultValue (form w') /\
  fileName w' = None /\
  isLoading w' = false.
Proof.
  intros Hk Hu H2xx [Href Hhook]. apply ok_2xx in H2xx.
  unfold handleSubmit. rewrite Hk, Hu.
  run_handler w H2xx H2xx; lazy in Href, Hhook; try discriminate;
    repeat split; reflexivity.
Qed.

Lemma handleSubmit_success_witness :
  mounted filled /\
  fileName filled = Some "report.pdf" /\
  fileName
    (exec (handleSubmit configured
             (Fulfilled {| http_status := 200; text := Fulfilled "" |})) filled)
  = None.
Proof.
  assert (Hm : mounted filled) by (split; reflexivity).
  split; [exact Hm |]. split; [reflexivity |].
  apply (handleSubmit_success configured
           {| http_status := 200; text := Fulfilled "" |} filled
           "secret" "https://example.test/print");
    [reflexivity | reflexivity | cbn; lia | exact Hm].
Defined.

(** C3: once the request has been sent, every way the flow can end (2xx,
    non-2xx with or without a readable body, a thrown error) leaves
    [isLoading] false and the submit button enabled, and the handler
    returns normally. *)
Theorem handleSubmit_returns_to_idle env answer w apiKey webhookUrl :
  truthy (VITE_PRINT_API_KEY env) = Some apiKey ->
  truthy (VITE_PRINT_WEBHOOK_URL env) = Some webhookUrl ->
  let w' := exec (handleSubmit env answer) w in
  fst (handleSubmit env answer w) = Ok tt /\
  isLoading w' = false /\
  submit_disabled w' = false /\
  (exists body, requests (log w') = Fetch webhookUrl apiKey body :: requests (log w)).
Proof.
  intros Hk Hu. split; [apply handleSubmit_completes |].
  unfold handleSubmit. rewrite Hk, Hu.
  destruct answer as [r | caught];
    [destruct (ok r) eqn:Hok;
     [| destruct (text r) as [errorText | caught] eqn:Htext] |];
    run_handler w Hok Htext; repeat split; eexists; reflexivity.
Qed.

Lemma handleSubmit_returns_to_idle_witness :
  truthy (VITE_PRINT_API_KEY configured) = Some "secret" /\
  isLoading (exec (handleSubmit configured (Rejected (Thrown "offline"))) filled)
  = false.
Proof.
  split; [reflexivity |].
  apply (handleSubmit_returns_to_idle configured (Rejected (Thrown "offline"))
           filled "secret" "https://example.test/print"); reflexivity.
Defined.

(** ** Failed submissions *)

Lemma append_empty_r (s : string) : (s ++ "")%string = s.
Proof. induction s as [| c r IH]; cbn; [reflexivity | now rewrite IH]. Qed.

Lemma contains_after (before s : string) : contains (before ++ s) s.
Proof. exists before, "". now rewrite append_empty_r. Qed.

(** C4 as stated fails: the message is not the body text itself but the
    text after the prefix ["Error: "], and likewise for the fallback; and
    when reading the body fails, the message is the network error one. *)
Lemma handleSubmit_rejection_message_is_prefixed :
  let rejected body :=
    exec (handleSubmit configured
            (Fulfilled {| http_status := 500; text := body |})) filled in
  status (rejected (Fulfilled "printer offline"))
    = Some {| message := "Error: printer offline"; type := error |} /\
  status (rejected (Fulfilled "printer offline"))
    <> Some {| message := "printer offline"; type := error |} /\
  status (rejected (Fulfilled ""))
    = Some {| message := "Error: Could not send print job."; type := error |} /\
  status (rejected (Fulfilled ""))
    <> Some {| message := "Could not send print job."; type := error |} /\
  status (rejected (Rejected (Thrown "body stream interrupted")))
    = Some {| message := "Error: An unexpected network error occurred.";
              type := error |}.
Proof.
  lazy. repeat split; discriminate.
Qed.

(** C4, amended: on a non-2xx response whose body text is read, the status
    is an error whose message is ["Error: "] followed by the body text when
    that text is not empty, and by ["Could not send print job."] when it is;
    so the message contains the body text, ["printer offline"] for
    instance. *)
Theorem handleSubmit_rejection_message env response errorText w apiKey webhookUrl :
  truthy (VITE_PRINT_API_KEY env) = Some apiKey ->
  truthy (VITE_PRINT_WEBHOOK_URL env) = Some webhookUrl ->
  ~ 200 <= http_status response <= 299 ->
  text response = Fulfilled errorText ->
  exists s,
    status (exec (handleSubmit env (Fulfilled response)) w) = Some s /\
    type s = error /\
    (errorText <> "" -> message s = "Error: " ++ errorText) /\
    (errorText = "" -> message s = "Error: Could not send print job.") /\
    contains (message s) errorText.
Proof.
  intros Hk Hu Hno Htext.
  assert (Hok : ok response = false).
  { destruct (ok response) eqn:E; [| reflexivity].
    apply ok_2xx in E. contradiction. }
  exists (job_rejected errorText). split; [| split; [reflexivity |]].
  - unfold handleSubmit. rewrite Hk, Hu.
    run_handler w Hok Htext; reflexivity.
  - unfold job_rejected. cbn [message].
    destruct (String.eqb_spec errorText "") as [-> | Hne].
    + repeat split; try reflexivity; try contradiction.
      now exists "Error: Could not send print job.", "".
    + repeat split; try reflexivity; try contradiction.
      apply contains_after.
Qed.

Lemma handleSubmit_rejection_message_witness :
  ~ 200 <= 500 <= 299 /\
  exists s,
    status (exec (handleSubmit configured
                    (Fulfilled {| http_status := 500;
                                  text := Fulfilled "printer offline" |})) filled)
    = Some s /\
    contains (message s) "printer offline".
Proof.
  assert (Hno : ~ 200 <= 500 <= 299) by lia.
  split; [exact Hno |].
  destruct (handleSubmit_rejection_message configured
              {| http_status := 500; text := Fulfilled "printer offline" |}
              "printer offline" filled "secret" "https://example.test/print"
              eq_refl eq_refl Hno eq_refl)
    as [s [Hs [_ [_ [_ Hc]]]]].
  exists s. split; [exact Hs | exact Hc].
Defined.

(** When the body cannot be read, the flow ends in its [catch]. *)
Lemma handleSubmit_unreadable_body env response caught w apiKey webhookUrl :
  truthy (VITE_PRINT_API_KEY env) = Some apiKey ->
  truthy (VITE_PRINT_WEBHOOK_URL env) = Some webhookUrl ->
  ok response = false ->
  text response = Rejected caught ->
  status (exec (handleSubmit env (Fulfilled response)) w) = Some network_error.
Proof.
  intros Hk Hu Hok Htext. unfold handleSubmit. rewrite Hk, Hu.
  run_handler w Hok Htext; reflexivity.
Qed.

Lemma handleSubmit_thrown env caught w apiKey webhookUrl :
  truthy (VITE_PRINT_API_KEY env) = Some apiKey ->
  truthy (VITE_PRINT_WEBHOOK_URL env) = Some webhookUrl ->
  status (exec (handleSubmit env (Rejected caught)) w) = Some network_error.
Proof.
  intros Hk Hu. unfold handleSubmit. rewrite Hk, Hu.
  run_handler w Hk Hu; reflexivity.
Qed.

(** C9: a submission that was sent and failed (a non-2xx response or a
    thrown error) ends with an error status and [isLoading] false, and
    leaves the stepper's [count], the [#copies] control, the recorded file
    name, the file input's value and the whole form as they were. *)
Theorem handleSubmit_failure_frame env answer w apiKey webhookUrl :
  truthy (VITE_PRINT_API_KEY env) = Some apiKey ->
  truthy (VITE_PRINT_WEBHOOK_URL env) = Some webhookUrl ->
  failed answer ->
  let w' := exec (handleSubmit env answer) w in
  count w' = count w /\
  copies_value (form w') = copies_value (form w) /\
  fileName w' = fileName w /\
  file_value (form w') = file_value (form w) /\
  form w' = form w /\
  fileInputRef_current w' = fileInputRef_current w /\
  now w' = now w /\
  isLoading w' = false /\
  (exists m, status w' = Some {| message := m; type := error |}).
Proof.
  intros Hk Hu Hfailed. unfold handleSubmit. rewrite Hk, Hu.
  destruct answer as [r | caught]; cbn [failed] in Hfailed;
    [destruct (text r) as [errorText | caught] eqn:Htext |];
    run_handler w Hfailed Htext; repeat split; eexists; reflexivity.
Qed.

Lemma handleSubmit_failure_frame_witness :
  failed (Fulfilled {| http_status := 500; text := Fulfilled "printer offline" |}) /\
  fileName
    (exec (handleSubmit configured
             (Fulfilled {| http_status := 500;
                           text := Fulfilled "printer offline" |})) filled)
  = Some "report.pdf".
Proof.
  split; [reflexivity |].
  apply (handleSubmit_failure_frame configured
           (Fulfilled {| http_status := 500; text := Fulfilled "printer offline" |})
           filled "secret" "https://example.test/print");
    reflexivity.
Defined.

End SubmissionFacts.

(** ** More on the stepper *)

Module StepperExtras.
Import JS CustomNumberInput Stepper StepperFacts.

(** X1: after a blur [count] is not [''] and not below [min], whatever it
    was, so a second blur changes nothing. *)
Theorem handleInputBlur_settles (min : Z) (count : value) :
  let committed := handleInputBlur min count in
  is_empty_string committed = false /\
  lt_number committed (Fin min) = false /\
  handleInputBlur min committed = committed.
Proof.
  intros committed.
  assert (Hcases : committed = Num (Fin min) \/
                   (committed = count /\
                    is_empty_string count || lt_number count (Fin min) = false)).
  { subst committed. unfold handleInputBlur.
    destruct (is_empty_string count || lt_number count (Fin min));
      [now left | now right]. }
  destruct Hcases as [-> | [-> Hguard]].
  - unfold handleInputBlur.
    cbn [is_empty_string lt_number ToNumber lt orb]. rewrite Z.ltb_irrefl.
    repeat split.
  - unfold handleInputBlur. rewrite Hguard.
    apply orb_false_iff in Hguard as [He Hl]. repeat split; assumption.
Qed.

(** X2: typing a text that [parseInt] reads as the integer [c] and then
    leaving the field commits [max(min, c)]: the bound is applied by the
    blur, not while typing. *)
Theorem typed_then_blur_commits_max (min c : Z) (text : string) (count : value) :
  parseInt text = Fin c ->
  handleInputChange text count = Num (Fin c) /\
  handleInputBlur min (handleInputChange text count) = Num (Fin (Z.max min c)).
Proof.
  intros Hparse.
  assert (Hchange : handleInputChange text count = Num (Fin c)).
  { unfold handleInputChange. destruct (String.eqb_spec text "") as [-> | _].
    - discriminate Hparse.
    - cbv zeta. rewrite Hparse. reflexivity. }
  split; [exact Hchange |].
  rewrite Hchange. unfold handleInputBlur.
  cbn [is_empty_string lt_number ToNumber lt orb].
  destruct (Z.ltb_spec c min); do 2 f_equal; lia.
Qed.

Lemma typed_then_blur_commits_max_witness :
  parseInt "0" = Fin 0 /\
  handleInputBlur 1 (handleInputChange "0" (Num (Fin 3))) = Num (Fin 1).
Proof.
  split; [reflexivity |].
  apply (typed_then_blur_commits_max 1 0 "0" (Num (Fin 3))). reflexivity.
Defined.

Lemma is_digit_false (c : ascii) : is_digit c = false -> digit_value c = None.
Proof. unfold is_digit. destruct (digit_value c); [discriminate | reflexivity]. Qed.

Lemma digits_value_stops (ds : string) (c : ascii) (rest : string) (acc : Z) :
  all_digits ds = true -> is_digit c = false ->
  digits_value acc (ds ++ String c rest) = digits_value acc ds.
Proof.
  intros Hds Hc. revert acc.
  induction ds as [| d r IH]; intros acc; cbn [append digits_value].
  - now rewrite (is_digit_false c Hc).
  - cbn [all_digits] in Hds. apply andb_true_iff in Hds as [_ Hr].
    destruct (digit_value d); [now apply IH | reflexivity].
Qed.

Lemma parseInt_skips_white (ws s : string) :
  all_white_space ws = true -> parseInt (ws ++ s) = parseInt s.
Proof.
  intros Hws. unfold parseInt. now rewrite (trim_start_white _ _ Hws).
Qed.

(** The number read from a text that starts, with no white space, with an
    optional sign and a digit. *)
Lemma parseInt_of_signed_digits (sign : string) (d : ascii) (r : string) :
  sign = "" \/ sign = "+" \/ sign = "-" ->
  is_digit d = true ->
  parseInt (sign ++ String d r) =
  nearest_double ((if String.eqb sign "-" then -1 else 1)
                  * digits_value 0 (String d r)).
Proof.
  intros Hsign Hd.
  destruct (is_digit_not_sign_nor_space d Hd) as [Hw [Hm Hp]].
  unfold parseInt.
  destruct Hsign as [-> | [-> | ->]]; cbn [append trim_start].
  - rewrite Hw, Hm, Hp, Hd. reflexivity.
  - change (is_white_space "+") with false. cbn [Ascii.eqb Bool.eqb].
    rewrite Hd. reflexivity.
  - change (is_white_space "-") with false. cbn [Ascii.eqb Bool.eqb].
    rewrite Hd. reflexivity.
Qed.

(** X3: what is typed after the leading integer does not count: leading
    white space is skipped and everything from the first character after
    the digits that is not a digit is ignored, so typing ["12abc"] sets
    the same [count] as typing ["12"], and [" -3.9"] the same as ["-3"]. *)
Theorem typed_text_after_integer_is_ignored
    (ws sign : string) (d : ascii) (ds : string) (c : ascii) (rest : string)
    (count : value) :
  all_white_space ws = true ->
  sign = "" \/ sign = "+" \/ sign = "-" ->
  is_digit d = true -> all_digits ds = true -> is_digit c = false ->
  handleInputChange (ws ++ sign ++ String d ds ++ String c rest) count
  = handleInputChange (sign ++ String d ds) count.
Proof.
  intros Hws Hsign Hd Hds Hc.
  assert (Hset : forall text z,
             parseInt text = nearest_double z ->
             handleInputChange text count = Num (nearest_double z)).
  { intros text z Hp. unfold handleInputChange.
    destruct (String.eqb_spec text "") as [-> | _].
    - exfalso. apply (nearest_double_not_NaN z). now rewrite <- Hp.
    - cbv zeta. rewrite Hp.
      pose proof (nearest_double_not_NaN z) as Hn.
      destruct (nearest_double z); try reflexivity. now contradiction Hn. }
  assert (Hshort : parseInt (sign ++ String d ds)
                   = nearest_double ((if String.eqb sign "-" then -1 else 1)
                                     * digits_value 0 (String d ds)))
    by (now apply parseInt_of_signed_digits).
  rewrite (Hset _ _ Hshort). apply Hset.
  rewrite (parseInt_skips_white _ _ Hws).
  change (String d ds ++ String c rest)%string
    with (String d (ds ++ String c rest)).
  rewrite (parseInt_of_signed_digits sign d _ Hsign Hd).
  do 2 f_equal.
  assert (Hall : all_digits (String d ds) = true)
    by (cbn [all_digits]; now rewrite Hd, Hds).
  exact (digits_value_stops (String d ds) c rest 0 Hall Hc).
Qed.

Lemma typed_text_after_integer_is_ignored_witness :
  all_white_space " " = true /\ is_digit "." = false /\
  handleInputChange " -3.9" (Num (Fin 1)) = handleInputChange "-3" (Num (Fin 1)) /\
  handleInputChange "-3" (Num (Fin 1)) = Num (Fin (-3)).
Proof.
  split; [reflexivity |]. split; [reflexivity |]. split; [| reflexivity].
  apply (typed_text_after_integer_is_ignored " " "-" "3" "" "." "9");
    try reflexivity. right. right. reflexivity.
Defined.

Lemma ones_string_snoc (n : nat) :
  (ones_string n ++ "1")%string = ones_string (S n).
Proof.
  induction n as [| n IH]; [reflexivity |].
  cbn [ones_string append]. cbn [ones_string] in IH. now rewrite IH.
Qed.

(** X4: on the cleared field the buttons do not count from [min]: each
    plus appends the digit 1 to the text, so [n] presses give the string of
    [n] ones ("1", "11", "111", ...), and minus gives [max(min, -1)]. *)
Theorem buttons_on_cleared_field (min : Z) :
  (forall n, Nat.iter n handleIncrement (Str "") = Str (ones_string n)) /\
  (forall count, handleIncrement (handleInputChange "" count) = Str "1") /\
  handleDecrement min (Str "") = Num (Fin (Z.max min (-1))).
Proof.
  repeat split.
  - intros n. induction n as [| n IH]; [reflexivity |].
    rewrite Nat.iter_succ, IH. unfold handleIncrement, plus_1.
    now rewrite ones_string_snoc.
  - unfold handleDecrement.
    change (minus_1 (Str "")) with (Fin (-1)). now rewrite Math_max_Fin.
Qed.

(** X5: whatever the user does to the stepper, [count] is never [NaN]: it
    is a number other than [NaN], or a text made of the digit 1 only (the
    empty text included), and so it always converts to a number. *)
Theorem count_is_never_NaN (min defaultValue : Z) (actions : list action) :
  let count := run min actions (initial defaultValue) in
  count_shape count /\ ToNumber count <> NaN /\ aria_valuenow min count <> NaN.
Proof.
  assert (Hshape : forall c, count_shape c -> count_shape (run min actions c)).
  { induction actions as [| a rest IH]; intros c Hc; [exact Hc |].
    cbn [run fold_left]. apply IH.
    destruct (count_shape_preserved min
                match a with Change text => text | _ => "" end c Hc)
      as [Hd [Hi [Hch Hb]]].
    destruct a; assumption. }
  intros count.
  assert (H : count_shape count) by (apply Hshape; discriminate).
  split; [exact H |]. split; [now apply count_shape_ToNumber |].
  destruct count as [n | s]; cbn [aria_valuenow]; [exact H | discriminate].
Qed.

(** X6: [aria-valuenow] announces the value a blur would commit whenever
    [count] is the empty text or a number that is not below [min]. *)
Theorem aria_valuenow_is_committed_value (min : Z) (count : value) :
  count = Str "" \/ at_least_min min count = true ->
  Num (aria_valuenow min count) = handleInputBlur min count.
Proof.
  intros [-> | H]; [reflexivity |].
  destruct count as [[c | | |] | s]; try discriminate H.
  - cbn [at_least_min] in H. apply Z.leb_le in H.
    now rewrite handleInputBlur_keeps.
  - reflexivity.
Qed.

Lemma aria_valuenow_is_committed_value_witness :
  at_least_min 1 (Num (Fin 4)) = true /\
  Num (aria_valuenow 1 (Num (Fin 4))) = handleInputBlur 1 (Num (Fin 4)).
Proof.
  split; [reflexivity |].
  apply (aria_valuenow_is_committed_value 1 (Num (Fin 4))).
  right. reflexivity.
Defined.

(** X7: within the safe integers, plus then minus gives back a value that
    was at least [min], and minus then plus gives back a value above
    [min]; at or below [min], minus then plus gives [min + 1]. *)
Theorem plus_and_minus_undo_each_other (min c : Z) :
  (min <= c -> - 9007199254740992 <= c < 9007199254740992 ->
   handleDecrement min (handleIncrement (Num (Fin c))) = Num (Fin c)) /\
  (min < c -> - 9007199254740992 < c <= 9007199254740992 ->
   handleIncrement (handleDecrement min (Num (Fin c))) = Num (Fin c)) /\
  (c <= min -> - 9007199254740992 < c -> min < 9007199254740992 ->
   handleIncrement (handleDecrement min (Num (Fin c))) = Num (Fin (min + 1))).
Proof.
  repeat split; intros.
  - rewrite handleIncrement_exact by lia.
    unfold handleDecrement, minus_1. cbn [ToNumber].
    rewrite sub_1_exact by lia. rewrite Math_max_Fin. do 2 f_equal. lia.
  - unfold handleDecrement, minus_1. cbn [ToNumber].
    rewrite sub_1_exact by lia. rewrite Math_max_Fin.
    rewrite handleIncrement_exact by lia. do 2 f_equal. lia.
  - unfold handleDecrement, minus_1. cbn [ToNumber].
    rewrite sub_1_exact by lia. rewrite Math_max_Fin.
    rewrite handleIncrement_exact by lia. do 2 f_equal. lia.
Qed.

Lemma plus_and_minus_undo_each_other_witness :
  1 <= 3 /\ handleDecrement 1 (handleIncrement (Num (Fin 3))) = Num (Fin 3) /\
  handleIncrement (handleDecrement 1 (Num (Fin 1))) = Num (Fin 2).
Proof.
  split; [lia |]. split.
  - apply (proj1 (plus_and_minus_undo_each_other 1 3)); lia.
  - apply (proj2 (proj2 (plus_and_minus_undo_each_other 1 1))); lia.
Defined.

(** X8: pressing plus never leaves the safe integers: from an integer
    [start] within 2^53 in magnitude, any number [n] of increments gives
    an integer between [start] and 2^53, at most [start + n]. *)
Theorem increments_stay_safe (start : Z) (n : nat) :
  - 9007199254740992 <= start <= 9007199254740992 ->
  exists c, Nat.iter n handleIncrement (Num (Fin start)) = Num (Fin c) /\
            start <= c <= 9007199254740992 /\ c <= start + Z.of_nat n.
Proof.
  intros Hstart. induction n as [| n [c [IH [Hc Hn]]]].
  - exists start. split; [reflexivity | lia].
  - rewrite Nat.iter_succ, IH.
    destruct (Z.eq_dec c 9007199254740992) as [-> | Hne].
    + exists 9007199254740992. split; [vm_compute; reflexivity | lia].
    + exists (c + 1). split; [| lia].
      now apply handleIncrement_exact; lia.
Qed.

Lemma increments_stay_safe_witness :
  - 9007199254740992 <= 1 <= 9007199254740992 /\
  exists c, Nat.iter 2 handleIncrement (Num (Fin 1)) = Num (Fin c) /\
            1 <= c <= 9007199254740992 /\ c <= 1 + Z.of_nat 2.
Proof.
  assert (H : - 9007199254740992 <= 1 <= 9007199254740992) by lia.
  split; [exact H |]. exact (increments_stay_safe 1 2 H).
Defined.

End StepperExtras.

(** ** The theme *)

Module ThemeFacts.
Import Theme.

Lemma getItem_setItem (key v : string) (st : Storage) :
  getItem key (setItem key v st) = Some v.
Proof. unfold setItem. cbn [getItem]. now rewrite String.eqb_refl. Qed.

Lemma getItem_setItem_other (key other v : string) (st : Storage) :
  other <> key -> getItem other (setItem key v st) = getItem other st.
Proof.
  intros Hne. unfold setItem. cbn [getItem].
  destruct (String.eqb_spec key other) as [E | _]; [now contradiction Hne |].
  induction st as [| [k x] r IH]; [reflexivity |].
  cbn [filter fst getItem].
  destruct (String.eqb_spec k key) as [-> | Hk]; cbn [negb].
  - destruct (String.eqb_spec key other) as [E | _]; [now contradiction Hne |].
    exact IH.
  - cbn [getItem]. now rewrite IH.
Qed.

Lemma classList_contains_add (token other : string) (l : list string) :
  classList_contains other (classList_add token l)
  = String.eqb other token || classList_contains other l.
Proof.
  unfold classList_add, classList_contains.
  destruct (existsb (String.eqb token) l) eqn:Hin.
  - destruct (String.eqb_spec other token) as [-> | _]; [now rewrite Hin | reflexivity].
  - rewrite existsb_app. cbn [existsb]. rewrite orb_false_r. apply orb_comm.
Qed.

Lemma classList_contains_remove (token other : string) (l : list string) :
  classList_contains other (classList_remove token l)
  = negb (String.eqb other token) && classList_contains other l.
Proof.
  unfold classList_remove, classList_contains.
  induction l as [| t r IH]; cbn [filter existsb]; [now rewrite andb_false_r |].
  destruct (String.eqb_spec t token) as [-> | Ht]; cbn [negb existsb].
  - rewrite IH. destruct (String.eqb_spec other token); reflexivity.
  - rewrite IH. destruct (String.eqb_spec other t) as [-> | _]; cbn [orb].
    + destruct (String.eqb_spec t token); [contradiction | reflexivity].
    + reflexivity.
Qed.

Lemma initial_theme_not_empty (b : Browser) : initial_theme b <> "".
Proof.
  unfold initial_theme.
  destruct (getItem "theme" (localStorage b)) as [stored |].
  - destruct (String.eqb_spec stored ""); [| assumption].
    destruct (prefers_dark b); discriminate.
  - destruct (prefers_dark b); discriminate.
Qed.

Lemma toggleTheme_not_empty (t : string) : toggleTheme t <> "".
Proof. unfold toggleTheme. destruct (String.eqb t "light"); discriminate. Qed.

Lemma clicks_theme_not_empty (b : Browser) (n : nat) :
  theme (Nat.iter n click_toggle (mount_provider b)) <> "".
Proof.
  destruct n as [| n]; [apply initial_theme_not_empty |].
  rewrite Nat.iter_succ. apply toggleTheme_not_empty.
Qed.

Lemma clicks_browser (b : Browser) (n : nat) :
  exists b', browser (Nat.iter n click_toggle (mount_provider b))
             = theme_effect (theme (Nat.iter n click_toggle (mount_provider b))) b'
             /\ forall key, key <> "theme" ->
                  getItem key (localStorage b') = getItem key (localStorage b).
Proof.
  induction n as [| n [b' [E Hkeep]]].
  - exists b. split; reflexivity.
  - rewrite Nat.iter_succ. exists (browser (Nat.iter n click_toggle (mount_provider b))).
    split; [reflexivity |].
    intros key Hkey. rewrite E. cbn [theme_effect localStorage].
    rewrite getItem_setItem_other by assumption. now apply Hkeep.
Qed.

(** X9: after the provider has mounted and after any number of clicks on
    the toggle, the stored item [theme] is the current theme and the root
    element has the class [dark] exactly when the theme is ["dark"]; the
    other items of the storage are as they were. *)
Theorem theme_is_persisted_and_applied (b : Browser) (n : nat) :
  let p := Nat.iter n click_toggle (mount_provider b) in
  getItem "theme" (localStorage (browser p)) = Some (theme p) /\
  classList_contains "dark" (classList (browser p)) = String.eqb (theme p) "dark" /\
  (forall key, key <> "theme" ->
     getItem key (localStorage (browser p)) = getItem key (localStorage b)).
Proof.
  intros p. destruct (clicks_browser b n) as [b' [E Hkeep]]. fold p in E.
  rewrite E. cbn [theme_effect localStorage classList].
  split; [| split].
  - apply getItem_setItem.
  - destruct (String.eqb (theme p) "dark").
    + now rewrite classList_contains_add.
    + now rewrite classList_contains_remove.
  - intros key Hkey. rewrite getItem_setItem_other by assumption.
    now apply Hkeep.
Qed.

(** X10: a reload restores the theme: mounting the provider again on what
    it left in the storage gives the same theme, whatever the system's
    colour scheme preference is by then. *)
Theorem theme_survives_reload (b : Browser) (n : nat) (classes : list string)
    (dark_now : bool) :
  let p := Nat.iter n click_toggle (mount_provider b) in
  theme (mount_provider {| localStorage := localStorage (browser p);
                           classList := classes;
                           prefers_dark := dark_now |}) = theme p.
Proof.
  intros p. cbn [mount_provider theme]. unfold initial_theme. cbn [localStorage].
  destruct (clicks_browser b n) as [b' [E _]]. fold p in E.
  rewrite E. cbn [theme_effect localStorage]. rewrite getItem_setItem.
  destruct (String.eqb_spec (theme p) "") as [Hempty | _]; [| reflexivity].
  now destruct (clicks_theme_not_empty b n).
Qed.

(** When nothing usable is stored (no item, or the empty string) the
    first theme follows the system preference, and any other stored value
    wins over it, checked or not. *)
Theorem initial_theme_source (b : Browser) :
  (getItem "theme" (localStorage b) = None \/
   getItem "theme" (localStorage b) = Some "" ->
   initial_theme b = if prefers_dark b then "dark" else "light") /\
  (forall stored, stored <> "" ->
     getItem "theme" (localStorage b) = Some stored ->
     initial_theme b = stored).
Proof.
  unfold initial_theme. split.
  - intros [-> | ->]; reflexivity.
  - intros stored Hne ->. destruct (String.eqb_spec stored ""); [contradiction | reflexivity].
Qed.

Lemma initial_theme_source_witness :
  getItem "theme" [("theme", "")] = Some "" /\
  initial_theme {| localStorage := [("theme", "")]; classList := [];
                   prefers_dark := true |} = "dark".
Proof.
  split; [reflexivity |].
  apply (proj1 (initial_theme_source
                  {| localStorage := [("theme", "")]; classList := [];
                     prefers_dark := true |})).
  right. reflexivity.
Defined.

(** X11: a click always changes the theme and always lands on ["light"] or
    ["dark"]; two clicks give the theme back exactly when it was one of
    these two; the toggle's label names the theme the click leads to, and
    its icon is the moon exactly when the click leads to dark. *)
Theorem toggleTheme_flips (t : string) :
  toggleTheme t <> t /\
  (toggleTheme t = "light" \/ toggleTheme t = "dark") /\
  (toggleTheme (toggleTheme t) = t <-> t = "light" \/ t = "dark") /\
  aria_label t = "Switch to " ++ toggleTheme t ++ " mode" /\
  (toggle_icon t = MoonIcon <-> toggleTheme t = "dark").
Proof.
  unfold toggleTheme, aria_label, toggle_icon.
  destruct (String.eqb_spec t "light") as [-> | Hne].
  - change (String.eqb "dark" "light") with false. cbv iota.
    split; [discriminate |]. split; [now right |].
    split; [| split; [reflexivity | split; reflexivity]].
    split; [now left | reflexivity].
  - change (String.eqb "light" "light") with true. cbv iota.
    split; [congruence |]. split; [now left |].
    split; [| split; [reflexivity | split; discriminate]].
    split.
    + intros <-. now right.
    + intros [-> | ->]; [contradiction | reflexivity].
Qed.

(** X12: a stored theme that is neither ["light"] nor ["dark"] shows as
    light (no [dark] class), and the first click turns it into ["light"]:
    the class list stays as it is and only the second click gives dark. *)
Theorem unknown_theme_needs_two_clicks (b : Browser) (stored : string) :
  getItem "theme" (localStorage b) = Some stored ->
  stored <> "" -> stored <> "light" -> stored <> "dark" ->
  let p0 := mount_provider b in
  let p1 := click_toggle p0 in
  let p2 := click_toggle p1 in
  theme p0 = stored /\
  classList_contains "dark" (classList (browser p0)) = false /\
  theme p1 = "light" /\
  classList (browser p1) = classList (browser p0) /\
  theme p2 = "dark" /\
  classList_contains "dark" (classList (browser p2)) = true.
Proof.
  intros Hst Hne Hl Hd p0 p1 p2.
  assert (H0 : theme p0 = stored)
    by (now apply (proj2 (initial_theme_source b))).
  assert (H1 : theme p1 = "light").
  { subst p1. cbn [click_toggle theme]. rewrite H0. unfold toggleTheme.
    destruct (String.eqb_spec stored "light"); [contradiction | reflexivity]. }
  assert (H2 : theme p2 = "dark").
  { subst p2. cbn [click_toggle theme]. now rewrite H1. }
  assert (Hrm : forall l, classList_remove "dark" (classList_remove "dark" l)
                          = classList_remove "dark" l).
  { intros l. unfold classList_remove. induction l as [| t r IH]; [reflexivity |].
    cbn [filter]. destruct (negb (String.eqb t "dark")) eqn:E; [| exact IH].
    cbn [filter]. now rewrite E, IH. }
  split; [exact H0 |]. split; [| split; [exact H1 | split; [| split; [exact H2 |]]]].
  - subst p0. cbn [mount_provider browser theme_effect classList].
    cbn [mount_provider theme] in H0. rewrite H0.
    destruct (String.eqb_spec stored "dark"); [contradiction |].
    rewrite classList_contains_remove. reflexivity.
  - subst p1. cbn [click_toggle browser theme_effect classList].
    cbn [click_toggle theme] in H1. rewrite H1.
    change (String.eqb "light" "dark") with false. cbv iota.
    subst p0. cbn [mount_provider browser theme_effect classList].
    cbn [mount_provider theme] in H0. rewrite H0.
    destruct (String.eqb_spec stored "dark"); [contradiction |]. apply Hrm.
  - subst p2. cbn [click_toggle browser theme_effect classList].
    cbn [click_toggle theme] in H2. rewrite H2.
    change (String.eqb "dark" "dark") with true. cbv iota.
    rewrite classList_contains_add. reflexivity.
Qed.

Lemma unknown_theme_needs_two_clicks_witness :
  getItem "theme" [("theme", "blue")] = Some "blue" /\
  theme (click_toggle
           (mount_provider {| localStorage := [("theme", "blue")];
                              classList := []; prefers_dark := true |}))
  = "light".
Proof.
  split; [reflexivity |].
  apply (unknown_theme_needs_two_clicks
           {| localStorage := [("theme", "blue")]; classList := [];
              prefers_dark := true |} "blue");
    [reflexivity | discriminate | discriminate | discriminate].
Defined.

End ThemeFacts.

(** ** More on the submission flow and the session *)

Module SessionFacts.
Import App Session SubmissionFacts.

(** X13: [handleSubmit] never throws: for every configuration, every way
    the request and the reading of the body can end, and every state, it
    completes normally. *)
Theorem handleSubmit_never_throws env answer w :
  exists w', handleSubmit env answer w = (Ok tt, w').
Proof.
  exists (exec (handleSubmit env answer) w). unfold exec.
  pose proof (handleSubmit_completes env answer w) as H.
  destruct (handleSubmit env answer w) as [r w']. cbn [fst snd] in *.
  now rewrite H.
Qed.

(** X14: a submission with both configuration values makes exactly one
    request, to [webhookUrl], with [apiKey] as its key, and with the file
    and copies values the form had when it was submitted, whatever the
    outcome is. *)
Theorem handleSubmit_sends_the_form_once env answer w apiKey webhookUrl :
  truthy (VITE_PRINT_API_KEY env) = Some apiKey ->
  truthy (VITE_PRINT_WEBHOOK_URL env) = Some webhookUrl ->
  requests (log (exec (handleSubmit env answer) w))
  = Fetch webhookUrl apiKey
      {| fd_file := file_value (form w); fd_copies := copies_value (form w) |}
    :: requests (log w).
Proof.
  intros Hk Hu. unfold handleSubmit. rewrite Hk, Hu.
  destruct answer as [r | caught];
    [destruct (ok r) eqn:Hok;
     [| destruct (text r) as [errorText | caught] eqn:Htext] |];
    run_handler w Hok Htext; reflexivity.
Qed.

Lemma handleSubmit_sends_the_form_once_witness :
  truthy (VITE_PRINT_API_KEY configured) = Some "secret" /\
  requests (log (exec (handleSubmit configured (Rejected (Thrown "offline"))) filled))
  = [Fetch "https://example.test/print" "secret"
       {| fd_file := "C:\fakepath\report.pdf"; fd_copies := "1" |}].
Proof.
  split; [reflexivity |].
  apply (handleSubmit_sends_the_form_once configured (Rejected (Thrown "offline"))
           filled "secret" "https://example.test/print"); reflexivity.
Defined.

(** X15: when the request throws, or when the body of a response that is
    not ok cannot be read, the status is the error with exactly the network
    error message, and the thrown value is what is logged last. *)
Theorem handleSubmit_transport_failure env answer caught w apiKey webhookUrl :
  truthy (VITE_PRINT_API_KEY env) = Some apiKey ->
  truthy (VITE_PRINT_WEBHOOK_URL env) = Some webhookUrl ->
  answer = Rejected caught \/
  (exists response, answer = Fulfilled response /\ ok response = false /\
                    text response = Rejected caught) ->
  let w' := exec (handleSubmit env answer) w in
  status w' = Some {| message := "Error: An unexpected network error occurred.";
                      type := error |} /\
  hd_error (log w')
  = Some (ConsoleError [CStr "An unexpected error occurred:"; CThrown caught]).
Proof.
  intros Hk Hu Hfail. unfold handleSubmit. rewrite Hk, Hu.
  destruct Hfail as [-> | [r [-> [Hok Htext]]]];
    run_handler w Hok Htext; split; reflexivity.
Qed.

Lemma handleSubmit_transport_failure_witness :
  truthy (VITE_PRINT_API_KEY configured) = Some "secret" /\
  status (exec (handleSubmit configured (Rejected (Thrown "offline"))) filled)
  = Some {| message := "Error: An unexpected network error occurred.";
            type := error |}.
Proof.
  split; [reflexivity |].
  apply (handleSubmit_transport_failure configured (Rejected (Thrown "offline"))
           (Thrown "offline") filled "secret" "https://example.test/print");
    [reflexivity | reflexivity | now left].
Defined.

(** X16: a response that is not ok and whose body is read is logged with
    its status code and its text, after the request. *)
Theorem handleSubmit_logs_rejection env response errorText w apiKey webhookUrl :
  truthy (VITE_PRINT_API_KEY env) = Some apiKey ->
  truthy (VITE_PRINT_WEBHOOK_URL env) = Some webhookUrl ->
  ok response = false -> text response = Fulfilled errorText ->
  log (exec (handleSubmit env (Fulfilled response)) w)
  = ConsoleError [CStr "Print job failed:"; CNum (http_status response);
                  CStr errorText]
    :: Fetch webhookUrl apiKey
         {| fd_file := file_value (form w); fd_copies := copies_value (form w) |}
    :: PreventDefault :: log w.
Proof.
  intros Hk Hu Hok Htext. unfold handleSubmit. rewrite Hk, Hu.
  run_handler w Hok Htext; reflexivity.
Qed.

Lemma handleSubmit_logs_rejection_witness :
  ok {| http_status := 503; text := Fulfilled "busy" |} = false /\
  hd_error (log (exec (handleSubmit configured
                         (Fulfilled {| http_status := 503;
                                       text := Fulfilled "busy" |})) filled))
  = Some (ConsoleError [CStr "Print job failed:"; CNum 503; CStr "busy"]).
Proof.
  split; [reflexivity |].
  rewrite (handleSubmit_logs_rejection configured
             {| http_status := 503; text := Fulfilled "busy" |} "busy" filled
             "secret" "https://example.test/print");
    reflexivity.
Defined.

(** X17: with a configuration value missing, the submission changes the
    status (and its timer) and nothing else: [isLoading] keeps its value,
    and the form, the file name and the count are untouched. *)
Theorem handleSubmit_missing_configuration_frame env answer w :
  missing (VITE_PRINT_API_KEY env) \/ missing (VITE_PRINT_WEBHOOK_URL env) ->
  let w' := exec (handleSubmit env answer) w in
  isLoading w' = isLoading w /\ form w' = form w /\
  fileName w' = fileName w /\ count w' = count w /\ now w' = now w.
Proof.
  unfold missing. intros Hmissing.
  outcome_cases env answer r Hok Htext;
    try (exfalso; destruct Hmissing; congruence);
    run_handler w Hok Htext; repeat split; reflexivity.
Qed.

Lemma handleSubmit_missing_configuration_frame_witness :
  missing (VITE_PRINT_API_KEY unconfigured) /\
  fileName (exec (handleSubmit unconfigured (Rejected (Thrown "offline"))) filled)
  = Some "report.pdf".
Proof.
  split; [reflexivity |].
  apply (handleSubmit_missing_configuration_frame
           unconfigured (Rejected (Thrown "offline")) filled).
  left. reflexivity.
Defined.

(** X18: on a 2xx response the file input is always emptied, but the
    recorded file name is cleared only through the hook: when the ref is
    null or [resetFileName] is not installed, the name stays. *)
Theorem handleSubmit_success_needs_the_hook env response w apiKey webhookUrl :
  truthy (VITE_PRINT_API_KEY env) = Some apiKey ->
  truthy (VITE_PRINT_WEBHOOK_URL env) = Some webhookUrl ->
  ok response = true ->
  let w' := exec (handleSubmit env (Fulfilled response)) w in
  file_value (form w') = "" /\
  fileName w' =
    (if fileInputRef_current w
     then match resetFileName (form w) with
          | Some SetFileNameNull => None
          | None => fileName w
          end
     else fileName w).
Proof.
  intros Hk Hu Hok. unfold handleSubmit. rewrite Hk, Hu.
  run_handler w Hok Hok; split; reflexivity.
Qed.

Lemma handleSubmit_success_needs_the_hook_witness :
  ok {| http_status := 204; text := Fulfilled "" |} = true /\
  fileName
    (exec (handleSubmit configured
             (Fulfilled {| http_status := 204; text := Fulfilled "" |}))
          (set_form {| file_value := file_value (form filled);
                       resetFileName := None;
                       copies_value := copies_value (form filled);
                       copies_defaultValue := copies_defaultValue (form filled) |}
             filled))
  = Some "report.pdf".
Proof.
  split; [reflexivity |].
  etransitivity;
    [ exact (proj2 (handleSubmit_success_needs_the_hook configured
                      {| http_status := 204; text := Fulfilled "" |} _
                      "secret" "https://example.test/print"
                      eq_refl eq_refl eq_refl))
    | reflexivity ].
Defined.

(** X19: no outcome of a submission, success included, writes the
    stepper's [count], the default of the copies control, the installed
    hook, the ref or the clock. *)
Theorem handleSubmit_never_touches env answer w :
  let w' := exec (handleSubmit env answer) w in
  count w' = count w /\
  copies_defaultValue (form w') = copies_defaultValue (form w) /\
  resetFileName (form w') = resetFileName (form w) /\
  fileInputRef_current w' = fileInputRef_current w /\
  now w' = now w.
Proof.
  outcome_cases env answer r Hok Htext; run_handler w Hok Htext;
    repeat split; reflexivity.
Qed.

(** X20: every submission ends with a status that is a success or an
    error, never with the [info] one; it is the success exactly when both
    configuration values are present and the response is ok; and every
    error message starts with ["Error: "]. *)
Theorem handleSubmit_outcome env answer w :
  exists s,
    status (exec (handleSubmit env answer) w) = Some s /\
    terminal s = true /\
    (type s = success <->
     truthy (VITE_PRINT_API_KEY env) <> None /\
     truthy (VITE_PRINT_WEBHOOK_URL env) <> None /\
     exists response, answer = Fulfilled response /\ ok response = true) /\
    (type s = error -> String.prefix "Error: " (message s) = true).
Proof.
  outcome_cases env answer r Hok Htext.
  - exists job_sent. split; [run_handler w Hok Htext; reflexivity |].
    split; [reflexivity |]. split; [| discriminate].
    split; [| reflexivity]. intros _.
    split; [discriminate |]. split; [discriminate |]. now exists r.
  - exists (job_rejected errorText).
    split; [run_handler w Hok Htext; reflexivity |].
    split; [reflexivity |]. split; [| intros _; lazy; now destruct errorText].
    split; [discriminate |]. intros [_ [_ [r' [E Hok']]]].
    inversion E. subst r'. congruence.
  - exists network_error. split; [run_handler w Hok Htext; reflexivity |].
    split; [reflexivity |]. split; [| reflexivity].
    split; [discriminate |]. intros [_ [_ [r' [E Hok']]]].
    inversion E. subst r'. congruence.
  - exists network_error. split; [run_handler w Hok Htext; reflexivity |].
    split; [reflexivity |]. split; [| reflexivity].
    split; [discriminate |]. intros [_ [_ [r' [E _]]]]. discriminate E.
  - exists missing_configuration.
    split; [run_handler w Hok Htext; reflexivity |].
    split; [reflexivity |]. split; [| reflexivity].
    split; [discriminate |]. intros [_ [H _]]. now contradiction H.
  - exists missing_configuration.
    split; [run_handler w Hok Htext; reflexivity |].
    split; [reflexivity |]. split; [| reflexivity].
    split; [discriminate |]. intros [H _]. now contradiction H.
Qed.

(** X21: [StatusMessage] renders nothing exactly for the absent status,
    shows the message as its text, and renders two statuses alike only
    when they are the same status: the three types have three different
    classes. *)
Theorem StatusMessage_is_faithful (s1 s2 : option Status) :
  (StatusMessage s1 = None <-> s1 = None) /\
  (forall s, s1 = Some s ->
     exists p, StatusMessage s1 = Some p /\ children p = message s /\ id p = "status") /\
  (StatusMessage s1 = StatusMessage s2 -> s1 = s2).
Proof.
  split; [| split].
  - destruct s1; split; intros H; try discriminate H; reflexivity.
  - intros s ->. eexists. repeat split.
  - destruct s1 as [[m1 t1] |], s2 as [[m2 t2] |]; cbn [StatusMessage];
      intros H; try discriminate H; [| reflexivity].
    inversion H as [[Hclass Hmsg]]. subst m2.
    destruct t1, t2; try reflexivity; discriminate Hclass.
Qed.

(** *** The application at rest *)

Lemma fire_frame (timer : TimerId) (at_ : Z) (w : World) :
  let w' := fire timer at_ w in
  isLoading w' = isLoading w /\ fileInputRef_current w' = fileInputRef_current w /\
  form w' = form w.
Proof.
  unfold fire.
  destruct (setStatus_world_frame None
              (set_now (Z.max (now w) at_)
                 (set_timers
                    (filter (fun p => negb (Nat.eqb (fst p) timer)) (timers w)) w)))
    as [Hl [Hr [_ [_ [Hf _]]]]].
  cbv zeta. rewrite Hl, Hr, Hf. repeat split.
Qed.

Lemma run_due_frame (queue : list (TimerId * Z)) (limit : Z) (w : World) :
  let w' := run_due queue limit w in
  isLoading w' = isLoading w /\ fileInputRef_current w' = fileInputRef_current w /\
  form w' = form w.
Proof.
  revert w. induction queue as [| [timer at_] rest IH]; intros w; [repeat split |].
  cbn [run_due]. destruct (at_ <=? limit); [| repeat split].
  destruct (pending timer w); [| apply IH].
  destruct (IH (fire timer at_ w)) as [Hl [Hr Hf]].
  destruct (fire_frame timer at_ w) as [Hl' [Hr' Hf']].
  cbv zeta in *. rewrite Hl, Hr, Hf, Hl', Hr', Hf'. repeat split.
Qed.

Lemma handleSubmit_isLoading env answer w :
  isLoading w = false -> isLoading (exec (handleSubmit env answer) w) = false.
Proof.
  intros H.
  outcome_cases env answer r Hok Htext; run_handler w Hok Htext;
    lazy in H; try exact H; reflexivity.
Qed.

Lemma handleSubmit_arms env answer w :
  timers_wf w ->
  let w' := exec (handleSubmit env answer) w in
  exists s timer, status w' = Some s /\ terminal s = true /\
                  timers w' = [(timer, now w' + 5000)].
Proof.
  intros Hwf w'.
  destruct (handleSubmit_status_view env answer w)
    as [final [before [Hfinal [Hb [_ [Hq [_ [Hs Hnow]]]]]]]].
  fold w' in Hq, Hs, Hnow. cbv zeta in Hq, Hs, Hnow.
  assert (Hbefore : timers_wf before)
    by (destruct Hb as [-> | ->]; [exact Hwf | now apply setStatus_world_wf]).
  destruct (commit_terminal before final Hbefore Hfinal)
    as [Hq0 [_ [_ [Hs0 Hnow0]]]].
  exists final, (next_timer before).
  rewrite Hs, Hq, Hnow, Hs0, Hq0, Hnow0. repeat split. exact Hfinal.
Qed.

Lemma at_rest_step (e : event) (w : World) : at_rest w -> at_rest (step e w).
Proof.
  intros [Hm [Hwf [Hl Hst]]]. destruct e as [env answer | ms | files |]; cbn [step].
  - split; [now apply handleSubmit_mounted |].
    split; [now apply handleSubmit_timers_wf |].
    split; [now apply handleSubmit_isLoading |].
    destruct (handleSubmit_arms env answer w Hwf) as [s [timer [Hs [Ht Hq]]]].
    rewrite Hs. split; [exact Ht |]. exists timer, (now (exec (handleSubmit env answer) w) + 5000).
    split; [exact Hq | lia].
  - pose proof (N2Z.is_nonneg ms) as Hms.
    assert (Hframe : mounted (elapse (Z.of_N ms) w) /\
                     isLoading (elapse (Z.of_N ms) w) = false).
    { unfold elapse.
      destruct (run_due_frame (timers w) (now w + Z.of_N ms) w) as [Hl' [Hr' Hf']].
      destruct Hm as [Href Hhook]. unfold mounted.
      cbn [set_now fileInputRef_current form isLoading].
      cbv zeta in *. rewrite Hl', Hr', Hf'. repeat split; assumption. }
    destruct Hframe as [Hm' Hl'].
    split; [exact Hm' |]. split; [now apply elapse_wf |]. split; [exact Hl' |].
    destruct (status w) as [s |] eqn:Hs.
    + destruct Hst as [Ht [timer [at_ [Hq Hdue]]]].
      destruct (Z.le_gt_cases at_ (now w + Z.of_N ms)) as [Hfire | Hwait].
      * destruct (elapse_fires (Z.of_N ms) w timer at_ Hwf Hq Hfire)
          as [Hs' [Hq' _]].
        now rewrite Hs'.
      * rewrite elapse_idle
          by (rewrite Hq; intros t a [E | []]; inversion E; lia).
        cbn [set_now status timers now]. rewrite Hs.
        split; [exact Ht |]. exists timer, at_. split; [exact Hq | lia].
    + rewrite elapse_idle by (rewrite Hst; intros t a []).
      cbn [set_now status timers]. now rewrite Hs.
  - destruct Hm as [Href Hhook].
    assert (E : exists fv fn,
               exec (pick_files files) w
               = set_fileName fn
                   (set_form {| file_value := fv;
                                resetFileName := resetFileName (form w);
                                copies_value := copies_value (form w);
                                copies_defaultValue := copies_defaultValue (form w) |}
                      w)).
    { destruct files; eexists; eexists; reflexivity. }
    destruct E as [fv [fn ->]].
    split; [split; assumption |]. split; [exact Hwf |]. split; [exact Hl |].
    exact Hst.
  - destruct Hm as [Href Hhook].
    assert (E : exec handleRemoveFile w
               = set_fileName None
                   (set_form {| file_value := "";
                                resetFileName := resetFileName (form w);
                                copies_value := copies_value (form w);
                                copies_defaultValue := copies_defaultValue (form w) |}
                      w)).
    { unfold exec, handleRemoveFile, when_ref, bind, gets. now rewrite Href. }
    rewrite E.
    split; [split; assumption |]. split; [exact Hwf |]. split; [exact Hl |].
    exact Hst.
Qed.

Lemma after_at_rest (events : list event) : at_rest (after events).
Proof.
  unfold after.
  assert (H : at_rest mount) by (repeat split).
  revert H. generalize mount.
  induction events as [| e rest IH]; intros w Hw; [exact Hw |].
  cbn [fold_left]. apply IH. now apply at_rest_step.
Qed.

(** X22: however the session went (submissions with any outcome, time
    passing, files picked and removed), when the application rests the
    submit button is enabled and reads ["Print Document"], the form is
    still mounted with its reset hook, at most one timeout is pending, and
    the status on screen is never the [info] one. *)
Theorem session_rests_idle (events : list event) :
  let w := after events in
  submit_disabled w = false /\
  submit_label w = "Print Document" /\
  mounted w /\
  (List.length (timers w) <= 1)%nat /\
  (forall s, status w = Some s -> type s <> info).
Proof.
  intros w. destruct (after_at_rest events) as [Hm [Hwf [Hl Hst]]]. fold w in Hm, Hwf, Hl, Hst.
  split; [exact Hl |]. split; [unfold submit_label; now rewrite Hl |].
  split; [exact Hm |]. split.
  - destruct (status w).
    + destruct Hst as [_ [timer [at_ [-> _]]]]. cbn. lia.
    + rewrite Hst. cbn. lia.
  - intros s Hs. rewrite Hs in Hst. destruct Hst as [Ht _].
    unfold terminal in Ht. intros E. rewrite E in Ht. discriminate.
Qed.

(** From a world in which the application rests, 5000 ms without an event
    leave no status. *)
Theorem every_status_is_dismissed (events : list event) (dt : Z) :
  5000 <= dt ->
  let w := elapse dt (after events) in
  status w = None /\ StatusMessage (status w) = None.
Proof.
  intros Hdt w.
  assert (H : status w = None).
  { subst w. destruct (after_at_rest events) as [_ [Hwf [_ Hst]]].
    destruct (status (after events)) as [s |] eqn:Hs.
    - destruct Hst as [_ [timer [at_ [Hq Hdue]]]].
      eapply elapse_fires; [exact Hwf | exact Hq | lia].
    - rewrite elapse_idle by (rewrite Hst; intros t a []).
      exact Hs. }
  split; [exact H | now rewrite H].
Qed.

Lemma every_status_is_dismissed_witness :
  5000 <= 5000 /\
  status (elapse 5000
            (after [PickFiles ["report.pdf"];
                    Submit configured (Rejected (Thrown "offline"));
                    Wait 1200;
                    Submit configured
                      (Fulfilled {| http_status := 200; text := Fulfilled "" |})]))
  = None.
Proof.
  assert (H : 5000 <= 5000) by lia.
  split; [exact H |].
  exact (proj1 (every_status_is_dismissed
                  [PickFiles ["report.pdf"];
                   Submit configured (Rejected (Thrown "offline"));
                   Wait 1200;
                   Submit configured
                     (Fulfilled {| http_status := 200; text := Fulfilled "" |})]
                  5000 H)).
Defined.

(** X24: whatever happened before it, even a status still waiting for
    its dismissal, the status of the latest submission is shown for the
    5000 ms that follow it and is gone after them. *)
Theorem latest_submission_is_shown_5000_ms (events : list event) env answer :
  let w := after (events ++ [Submit env answer]) in
  (exists s, status w = Some s) /\
  (forall dt, 0 <= dt < 5000 ->
     StatusMessage (status (elapse dt w)) = StatusMessage (status w)) /\
  (forall dt, 5000 <= dt -> StatusMessage (status (elapse dt w)) = None).
Proof.
  intros w.
  assert (E : w = exec (handleSubmit env answer) (after events))
    by (subst w; unfold after; now rewrite fold_left_app).
  destruct (after_at_rest events) as [_ [Hwf _]].
  destruct (handleSubmit_status_dismissed env answer (after events) Hwf)
    as [Hkeep Hgone].
  destruct (handleSubmit_arms env answer (after events) Hwf) as [s [_ [Hs _]]].
  rewrite <- E in Hkeep, Hgone, Hs. split; [now exists s |]. split.
  - intros dt Hdt. now rewrite Hkeep.
  - intros dt Hdt. now rewrite Hgone.
Qed.

Lemma latest_submission_is_shown_5000_ms_witness :
  0 <= 4999 < 5000 /\
  StatusMessage
    (status
       (elapse 4999
          (after ([Submit configured (Rejected (Thrown "offline")); Wait 3000]
                  ++ [Submit configured
                        (Fulfilled {| http_status := 200; text := Fulfilled "" |})]))))
  = StatusMessage (Some {| message := "Success! Print job sent."; type := success |}).
Proof.
  assert (H : 0 <= 4999 < 5000) by lia.
  split; [exact H |].
  etransitivity;
    [ exact (proj1 (proj2 (latest_submission_is_shown_5000_ms
                             [Submit configured (Rejected (Thrown "offline"));
                              Wait 3000]
                             configured
                             (Fulfilled {| http_status := 200;
                                           text := Fulfilled "" |})))
               4999 H)
    | lazy; reflexivity ].
Defined.

(** X25: picking files records the first name; removing the file then
    empties the input and forgets the name, after which picking the same
    files again brings back exactly the state of the first pick; a dialog
    closed with no file forgets the name too.  With a null ref, removing
    does nothing at all. *)
Theorem pick_remove_pick (first : string) (others : list string) (w : World) :
  (fileInputRef_current w = true ->
   let w1 := exec (pick_files (first :: others)) w in
   let w2 := exec handleRemoveFile w1 in
   fileName w1 = Some first /\
   fileName w2 = None /\ file_value (form w2) = "" /\
   exec (pick_files (first :: others)) w2 = w1 /\
   fileName (exec (pick_files []) w1) = None) /\
  (fileInputRef_current w = false -> exec handleRemoveFile w = w).
Proof.
  destruct w as [st il ref cl fn ct [fv hook cv cd] nw tq nt lg].
  cbn [fileInputRef_current]. split; intros ->.
  - lazy. repeat split.
  - reflexivity.
Qed.

Lemma pick_remove_pick_witness :
  fileInputRef_current mount = true /\
  fileName (exec handleRemoveFile (exec (pick_files ["a.pdf"; "b.pdf"]) mount))
  = None.
Proof.
  split; [reflexivity |].
  apply (proj1 (pick_remove_pick "a.pdf" ["b.pdf"] mount)). reflexivity.
Defined.

End SessionFacts.

(** ** The copies control over a successful submission *)

Module CopiesFacts.
Import JS CustomNumberInput App Copies SubmissionFacts.

(** Every action whose result has a text leaves the control showing
    [count], with its default value in step. *)
Lemma stepper_controlled (a : Stepper.action) (w : World) (shown : string) :
  ToString (Stepper.act 1 a (count w)) = Some shown ->
  controlled (stepper a w) /\ copies_value (form (stepper a w)) = shown.
Proof.
  intros H. unfold stepper, commit_copies, controlled.
  cbn [set_count count]. rewrite H. cbn [set_form form count copies_value
    copies_defaultValue]. split; [| reflexivity].
  exists shown. repeat split. exact H.
Qed.

(** On a 2xx response a control that shows [count] keeps showing it:
    [form.reset()] puts back the default value, which is the text of
    [count], and nothing writes [count]. *)
Lemma handleSubmit_success_keeps_copies env response w apiKey webhookUrl :
  truthy (VITE_PRINT_API_KEY env) = Some apiKey ->
  truthy (VITE_PRINT_WEBHOOK_URL env) = Some webhookUrl ->
  ok response = true ->
  controlled w ->
  let w' := exec (handleSubmit env (Fulfilled response)) w in
  count w' = count w /\
  copies_value (form w') = copies_value (form w) /\
  controlled w'.
Proof.
  intros Hk Hu Hok [shown [Hshown [Hv Hd]]].
  assert (H : let w' := exec (handleSubmit env (Fulfilled response)) w in
              count w' = count w /\
              copies_value (form w') = copies_defaultValue (form w) /\
              copies_defaultValue (form w') = copies_defaultValue (form w)).
  { unfold handleSubmit. rewrite Hk, Hu.
    run_handler w Hok Hok; repeat split; reflexivity. }
  cbv zeta in *. destruct H as [Hc [Hv' Hd']].
  split; [exact Hc |]. split; [congruence |].
  exists shown. rewrite Hc. repeat split; congruence.
Qed.

(** C2, at the failing input: with 5 typed as the number of copies, a 200
    response gives the success status with its message, empties the file
    input, clears the file name through the hook and leaves [isLoading]
    false, but the copies field is not back at its default 1: [count] is
    still 5 and the control still shows 5. *)
Theorem handleSubmit_success_keeps_typed_copies :
  let w := five_copies in
  let w' := exec (handleSubmit configured
                    (Fulfilled {| http_status := 200; text := Fulfilled "" |})) w in
  mounted w /\ count w = Num (Fin 5) /\ copies_value (form w) = "5" /\
  status w' = Some {| message := "Success! Print job sent."; type := success |} /\
  file_value (form w') = "" /\ fileName w' = None /\ isLoading w' = false /\
  count w' = Num (Fin 5) /\ copies_value (form w') = "5" /\
  count mount = Num (Fin 1) /\ copies_value (form mount) = "1".
Proof.
  lazy. repeat split.
Qed.

End CopiesFacts.

(** ** The status while the request is pending *)

Module InFlightFacts.
Import App Session InFlight SubmissionFacts SessionFacts.

Ltac unfold_parts :=
  unfold handleSubmit_until_await, handleSubmit_from_await.

(** [handleSubmit] is its part up to the [await] followed by the rest; with
    a configuration value missing the first part is all of it. *)
Lemma handleSubmit_split env answer w :
  handleSubmit env answer w
  = match truthy (VITE_PRINT_API_KEY env), truthy (VITE_PRINT_WEBHOOK_URL env) with
    | Some _, Some _ =>
        handleSubmit_from_await answer (exec (handleSubmit_until_await env) w)
    | _, _ => handleSubmit_until_await env w
    end.
Proof.
  unfold_parts.
  outcome_cases env answer r Hok Htext;
    open_world w; unfold_handler; cbn beta iota; rewrite ?Hok, ?Htext;
    try match goal with ref : bool |- _ => destruct ref end; lazy; reflexivity.
Qed.

Lemma until_await_world env w apiKey webhookUrl :
  truthy (VITE_PRINT_API_KEY env) = Some apiKey ->
  truthy (VITE_PRINT_WEBHOOK_URL env) = Some webhookUrl ->
  exec (handleSubmit_until_await env) w
  = emit (Fetch webhookUrl apiKey
            {| fd_file := file_value (form w); fd_copies := copies_value (form w) |})
      (setStatus_world
         (Some {| message := "Uploading and sending to printer..."; type := info |})
         (set_isLoading true (emit PreventDefault w))).
Proof.
  intros Hk Hu. unfold handleSubmit_until_await. unfold_handler.
  rewrite Hk, Hu. open_world w; lazy; reflexivity.
Qed.

(** X23: a status does not outlive its 5000 ms when the application rests:
    however the session went, 5000 ms later with no event in between the
    status is absent and [StatusMessage] renders nothing.  While a request
    is pending this is not so: the [info] status set before the [await]
    arms no timer and stays, with [isLoading] true, however long the
    request takes, until the rest of the handler runs. *)
Theorem status_is_dismissed_at_rest_only (events : list event) :
  (forall dt, 5000 <= dt ->
     status (elapse dt (after events)) = None /\
     StatusMessage (status (elapse dt (after events))) = None) /\
  (forall env apiKey webhookUrl dt,
     truthy (VITE_PRINT_API_KEY env) = Some apiKey ->
     truthy (VITE_PRINT_WEBHOOK_URL env) = Some webhookUrl ->
     let w := exec (handleSubmit_until_await env) (after events) in
     isLoading (elapse dt w) = true /\
     status (elapse dt w)
     = Some {| message := "Uploading and sending to printer..."; type := info |} /\
     (forall answer,
        handleSubmit env answer (after events) = handleSubmit_from_await answer w)).
Proof.
  split; [intros dt Hdt; now apply every_status_is_dismissed |].
  intros env apiKey webhookUrl dt Hk Hu w.
  destruct (after_at_rest events) as [_ [Hwf _]].
  assert (Hload : timers_wf (set_isLoading true (emit PreventDefault (after events))))
    by exact Hwf.
  destruct (commit_info _ {| message := "Uploading and sending to printer...";
                             type := info |} Hload eq_refl)
    as [Hq [_ [_ [Hs _]]]].
  assert (Ew := until_await_world env (after events) apiKey webhookUrl Hk Hu).
  fold w in Ew.
  assert (Hidle : elapse dt w = set_now (now w + dt) w).
  { apply elapse_idle. rewrite Ew. cbn [emit timers]. rewrite Hq. intros t a []. }
  rewrite Hidle. cbn [set_now isLoading status]. rewrite Ew.
  cbn [emit isLoading status]. split; [| split].
  - now destruct (setStatus_world_frame
                    (Some {| message := "Uploading and sending to printer...";
                             type := info |})
                    (set_isLoading true (emit PreventDefault (after events))))
      as [-> _].
  - exact Hs.
  - intros answer. rewrite handleSubmit_split, Hk, Hu. now rewrite <- Ew.
Qed.

Lemma status_is_dismissed_at_rest_only_witness :
  5000 <= 6000 /\
  truthy (VITE_PRINT_API_KEY configured) = Some "secret" /\
  status (elapse 6000
            (after [Submit configured (Rejected (Thrown "offline"))])) = None /\
  status (elapse 1000000
            (exec (handleSubmit_until_await configured)
               (after [Submit configured (Rejected (Thrown "offline"))])))
  = Some {| message := "Uploading and sending to printer..."; type := info |}.
Proof.
  assert (H : 5000 <= 6000) by lia.
  split; [exact H |]. split; [reflexivity |].
  destruct (status_is_dismissed_at_rest_only
              [Submit configured (Rejected (Thrown "offline"))]) as [Hrest Hflight].
  split.
  - exact (proj1 (Hrest 6000 H)).
  - exact (proj1 (proj2 (Hflight configured "secret" "https://example.test/print"
                           1000000 eq_refl eq_refl))).
Defined.

End InFlightFacts.
